(** * A GPT-2 style transformer (notebooks/01-Transformer101.ipynb)

    Shallow embedding of the model code of the notebook: the embedding,
    positional and unembedding layers, [LayerNorm], [SelfAttention], the
    [MLP] with [gelu_new], [TransformerBlock], [Transformer] and
    [cross_entropy_lm].

    Conventions.
    - Tensor entries are real numbers: every torch operation is read as the
      exact operation on [R] that it approximates in float32, and a statement
      about values is a statement about this reading.  Where a claim is about
      what float32 itself does, the model is extended: the additions of the
      residual stream are also given in IEEE 754 single precision
      ([f32_add], [f32_sub]), and the attention and the model are also given
      with the row-wise softmax left open ([SelfAttention_forward_with] and
      the definitions around it), so that a statement can be made for every
      softmax, one that underflows to 0 included.
    - A tensor is a nested list, outermost axis first; the axis sizes that the
      code reads off [.shape] or passes to the constructors are kept as record
      fields next to the entries.
    - A Python exception is a [Raise] in the [result] monad.  The contracted
      axes of an [einsum] and the operands of the element-wise operations
      inside the blocks always have the sizes the constructors gave them, so
      those operations are written as total functions; indexing, slicing, the
      broadcasting addition of [Transformer.forward], [torch.gather] and the
      constructor are the places where the code can raise and are modelled
      with their failure cases. *)

From Stdlib Require Import Reals Lra Lia ZArith List Bool PeanoNat.
From Stdlib Require SpecFloat.
Import ListNotations.

Set Warnings "-abstract-large-number".
Open Scope R_scope.

(** ** Python exceptions *)

Inductive exn : Type :=
| IndexError
| RuntimeError
| TypeError
| AttributeError.

Inductive result (A : Type) : Type :=
| Ok (a : A)
| Raise (e : exn).

Arguments Ok {A} a.
Arguments Raise {A} e.

Definition bind {A B : Type} (r : result A) (k : A -> result B) : result B :=
  match r with
  | Ok a => k a
  | Raise e => Raise e
  end.

Notation "x <- r ;; k" := (bind r (fun x => k))
  (at level 61, r at next level, right associativity).

Fixpoint mapM {A B : Type} (f : A -> result B) (l : list A) : result (list B) :=
  match l with
  | [] => Ok []
  | a :: l' => b <- f a ;; bs <- mapM f l' ;; Ok (b :: bs)
  end.

(** ** Construction

    A constructor draws its initial values from torch's global generator and
    may print; [init_state] carries the generator and the trace of what has
    been printed and built.  The generator is kept as a stream of values to
    hand out: it stands for the fact that the values of a fill come from the
    generator and that a fill changes its state.  Which of its raw outputs
    torch consumes for a fill of a given size is not modelled, and no
    statement below is about the values drawn or about how far the generator
    has advanced.  An exception leaves the state as it is at the point of the
    raise. *)

Inductive class_name : Type :=
| CEmbeddingLayer
| CPositionEmbedding
| CUnembeddingLayer
| CLayerNorm
| CSelfAttention
| CLinear
| CMLP
| CTransformerBlock
| CTransformer.

Inductive event : Type :=
| Printed (shape : list nat)
| Built (c : class_name).

Record init_state : Type := {
  generator : nat -> R;
  trace : list event
}.

Definition Init (A : Type) : Type := init_state -> init_state * result A.

Definition ret {A : Type} (a : A) : Init A := fun s => (s, Ok a).

Definition raise {A : Type} (e : exn) : Init A := fun s => (s, Raise e).

Definition bindI {A B : Type} (c : Init A) (k : A -> Init B) : Init B :=
  fun s =>
    match c s with
    | (s', Ok a) => k a s'
    | (s', Raise e) => (s', Raise e)
    end.

Notation "x <~ c ;; k" := (bindI c (fun x => k))
  (at level 61, c at next level, right associativity).

Definition lift {A : Type} (r : result A) : Init A := fun s => (s, r).

Definition emit (ev : event) : Init unit :=
  fun s => ({| generator := generator s; trace := trace s ++ [ev] |}, Ok tt).

Fixpoint mapI {A B : Type} (f : A -> Init B) (l : list A) : Init (list B) :=
  match l with
  | [] => ret []
  | a :: l' => b <~ f a ;; bs <~ mapI f l' ;; ret (b :: bs)
  end.

(** ** Tensors *)

Abbreviation vec := (list R).
Abbreviation mat := (list (list R)).
Abbreviation tensor3 := (list (list (list R))).

(** A token id is a Python integer. *)
Abbreviation token_tensor := (list (list Z)).

(** [tab n f] is the list [f 0; ...; f (n-1)]: one output axis of an einsum. *)
Definition tab {A : Type} (n : nat) (f : nat -> A) : list A := map f (seq 0 n).

Definition vsum (v : vec) : R := fold_right Rplus 0 v.

(** [rsum n f] is the sum of [f m] over a contracted axis of size [n]. *)
Definition rsum (n : nat) (f : nat -> R) : R := vsum (tab n f).

Definition vget (v : vec) (i : nat) : R := nth i v 0.
Definition mget (M : mat) (i j : nat) : R := vget (nth i M []) j.
Definition tget (T : tensor3) (i j k : nat) : R := mget (nth i T []) j k.

Fixpoint zipWith {A B C : Type} (f : A -> B -> C) (l : list A) (l' : list B) : list C :=
  match l, l' with
  | a :: t, b :: t' => f a b :: zipWith f t t'
  | _, _ => []
  end.

Definition vadd : vec -> vec -> vec := zipWith Rplus.
Definition madd : mat -> mat -> mat := zipWith vadd.
Definition tadd : tensor3 -> tensor3 -> tensor3 := zipWith madd.

(** [x.shape[0]] and [x.shape[1]] of a tensor with at least two axes. *)
Definition shape0 {A : Type} (x : list (list A)) : nat := length x.
Definition shape1 {A : Type} (x : list (list A)) : nat :=
  match x with
  | [] => 0%nat
  | r :: _ => length r
  end.

(** [x.mean(dim=-1)] on one row.  Of an empty row torch returns nan, which
    [R] does not have: the statements below that give the value of a mean
    are about rows with an entry. *)
Definition mean (x : vec) : R := vsum x / INR (length x).

(** [x.var(dim=-1)] on one row: [torch.Tensor.var] called without [unbiased]
    or [correction] applies Bessel's correction (denominator [n - 1]). *)
Definition var (x : vec) : R :=
  vsum (map (fun a => (a - mean x) * (a - mean x)) x) / (INR (length x) - 1).

(** [torch.zeros(n)]. *)
Definition zeros (n : nat) : vec := repeat 0 n.

(** [nn.init.normal_(torch.empty(n), std = std)]: [n] values handed out by
    the generator, scaled by [std]. *)
Definition normal_vec (n : nat) (std : R) : Init vec :=
  fun s =>
    ({| generator := fun i => generator s (n + i)%nat; trace := trace s |},
     Ok (tab n (fun i => std * generator s i))).

Definition normal_mat (r c : nat) (std : R) : Init mat :=
  mapI (fun _ => normal_vec c std) (seq 0 r).

Definition normal_tensor3 (a r c : nat) (std : R) : Init tensor3 :=
  mapI (fun _ => normal_mat r c std) (seq 0 a).

Definition has_shape1 (d : nat) (v : vec) : Prop := length v = d.
Definition has_shape2 (p d : nat) (x : mat) : Prop :=
  length x = p /\ Forall (has_shape1 d) x.
Definition has_shape3 (b p d : nat) (x : tensor3) : Prop :=
  length x = b /\ Forall (has_shape2 p d) x.

Definition tokens_shape (b p : nat) (toks : token_tensor) : Prop :=
  length toks = b /\ Forall (fun r => length r = p) toks.

Definition valid_ids (d_vocab : nat) (toks : token_tensor) : Prop :=
  Forall (Forall (fun id => (0 <= id < Z.of_nat d_vocab)%Z)) toks.

(** ** 1. Embedding and unembedding layers *)

Module EmbeddingLayer.

Record t : Type := { W_E : mat }.

Definition wf (d_vocab d_model : nat) (self : t) : Prop :=
  has_shape2 d_vocab d_model (W_E self).

(** One entry of the index tensor in [W_E[input_tokens, :]]: torch accepts an
    index [id] with [-n <= id < n] on an axis of size [n], counts a negative
    one from the end, and raises IndexError otherwise. *)
Definition index_row (W : mat) (id : Z) : result vec :=
  let n := Z.of_nat (length W) in
  if ((- n <=? id) && (id <? n))%Z then
    match nth_error W (Z.to_nat (if (id <? 0)%Z then id + n else id)) with
    | Some row => Ok row
    | None => Raise IndexError
    end
  else Raise IndexError.

Definition init (d_vocab d_model : nat) (init_std : R) : Init t :=
  W <~ normal_mat d_vocab d_model init_std ;;
  _ <~ emit (Printed [d_vocab; d_model]) ;;
  _ <~ emit (Built CEmbeddingLayer) ;;
  ret {| W_E := W |}.

Definition forward (self : t) (input_tokens : token_tensor) : result tensor3 :=
  mapM (mapM (index_row (W_E self))) input_tokens.

End EmbeddingLayer.

Module PositionEmbedding.

Record t : Type := { W_P : mat }.

Definition wf (max_ctx d_model : nat) (self : t) : Prop :=
  has_shape2 max_ctx d_model (W_P self).

(** [W_P[:n, :]]: a Python slice stops at the end of the axis. *)
Definition slice_to (n : nat) (W : mat) : mat := firstn n W.

Definition init (max_ctx d_model : nat) (init_std : R) : Init t :=
  W <~ normal_mat max_ctx d_model init_std ;;
  _ <~ emit (Printed [max_ctx; d_model]) ;;
  _ <~ emit (Built CPositionEmbedding) ;;
  ret {| W_P := W |}.

(** [repeat(W_P[:pos, :], "pos d_model -> batch pos d_model", batch = batch)];
    the [print] of the result's shape is not modelled. *)
Definition forward (self : t) (input_tokens : token_tensor) : result tensor3 :=
  let pos_embed := repeat (slice_to (shape1 input_tokens) (W_P self)) (shape0 input_tokens) in
  Ok pos_embed.

End PositionEmbedding.

Module UnembeddingLayer.

Record t : Type := {
  d_model : nat;
  d_vocab : nat;
  W_U : mat;   (* [d_model][d_vocab] *)
  b_U : vec    (* [d_vocab] *)
}.

Definition wf (dv dm : nat) (self : t) : Prop :=
  d_model self = dm /\ d_vocab self = dv /\
  has_shape2 dm dv (W_U self) /\ has_shape1 dv (b_U self).

Definition init (dv dm : nat) (init_std : R) : Init t :=
  W <~ normal_mat dm dv init_std ;;
  _ <~ emit (Built CUnembeddingLayer) ;;
  ret {| d_model := dm; d_vocab := dv; W_U := W; b_U := zeros dv |}.

(** "batch pos d_model, d_model d_vocab -> batch pos d_vocab", plus [b_U]. *)
Definition logits_at (self : t) (x : vec) : vec :=
  tab (d_vocab self) (fun v =>
    rsum (d_model self) (fun m => vget x m * mget (W_U self) m v) + vget (b_U self) v).

Definition forward (self : t) (resid_embed_last : tensor3) : tensor3 :=
  map (map (logits_at self)) resid_embed_last.

End UnembeddingLayer.

(** ** 2. Layer norm *)

Module LayerNorm.

Record t : Type := {
  gains : vec;
  bias : vec;
  layer_norm_eps : R
}.

Definition wf (d_model : nat) (self : t) : Prop :=
  has_shape1 d_model (gains self) /\ has_shape1 d_model (bias self).

Definition default_init_std : R := 0.02.
Definition default_layer_norm_eps : R := 1e-5.

Definition init (d_model : nat) (init_std eps : R) : Init t :=
  g <~ normal_vec d_model init_std ;;
  _ <~ emit (Built CLayerNorm) ;;
  ret {| gains := g; bias := zeros d_model; layer_norm_eps := eps |}.

(** The body of [forward] on the last axis of one position. *)
Definition forward_vec (self : t) (input : vec) : vec :=
  let layer_mean := mean input in
  let input_centered := map (fun a => a - layer_mean) input in
  let layer_var := var input_centered in
  let layer_scale := sqrt (layer_var + layer_norm_eps self) in
  let input_normalized := map (fun a => a / layer_scale) input_centered in
  tab (length input) (fun i =>
    vget input_normalized i * vget (gains self) i + vget (bias self) i).

Definition forward (self : t) (input : tensor3) : tensor3 :=
  map (map (forward_vec self)) input.

End LayerNorm.

(** ** 3. Self-attention *)

Module SelfAttention.

Record t : Type := {
  n_heads : nat;
  d_model : nat;
  d_head : nat;
  W_Q : tensor3;   (* [n_heads][d_model][d_head] *)
  b_Q : mat;       (* [n_heads][d_head] *)
  W_K : tensor3;
  b_K : mat;
  W_V : tensor3;
  b_V : mat;
  W_O : tensor3;   (* [n_heads][d_head][d_model] *)
  b_O : vec;       (* [d_model] *)
  mask_val : R
}.

(** The constructor's defaults [mask_val = -1e5, init_std = 0.02]. *)
Definition default_mask_val : R := -1e5.
Definition default_init_std : R := 0.02.

Definition wf (nh dm dh : nat) (self : t) : Prop :=
  n_heads self = nh /\ d_model self = dm /\ d_head self = dh /\
  has_shape3 nh dm dh (W_Q self) /\ has_shape2 nh dh (b_Q self) /\
  has_shape3 nh dm dh (W_K self) /\ has_shape2 nh dh (b_K self) /\
  has_shape3 nh dm dh (W_V self) /\ has_shape2 nh dh (b_V self) /\
  has_shape3 nh dh dm (W_O self) /\ has_shape1 dm (b_O self).

Definition init (nh dm dh : nat) (mask init_std : R) : Init t :=
  WQ <~ normal_tensor3 nh dm dh init_std ;;
  WK <~ normal_tensor3 nh dm dh init_std ;;
  WV <~ normal_tensor3 nh dm dh init_std ;;
  WO <~ normal_tensor3 nh dh dm init_std ;;
  _ <~ emit (Built CSelfAttention) ;;
  ret {| n_heads := nh; d_model := dm; d_head := dh;
         W_Q := WQ; b_Q := repeat (zeros dh) nh;
         W_K := WK; b_K := repeat (zeros dh) nh;
         W_V := WV; b_V := repeat (zeros dh) nh;
         W_O := WO; b_O := zeros dm;
         mask_val := mask |}.

(** "pos d_model, n_heads d_model d_head -> pos n_heads d_head", plus the
    per-head bias: the result is indexed [pos][head][d_head]. *)
Definition project (self : t) (W : tensor3) (b : mat) (x : mat) : tensor3 :=
  map (fun xrow =>
    tab (n_heads self) (fun h =>
      tab (d_head self) (fun e =>
        rsum (d_model self) (fun m => vget xrow m * tget W h m e) + mget b h e))) x.

Definition keys (self : t) (x : mat) : tensor3 := project self (W_K self) (b_K self) x.
Definition queries (self : t) (x : mat) : tensor3 := project self (W_Q self) (b_Q self) x.
Definition values (self : t) (x : mat) : tensor3 := project self (W_V self) (b_V self) x.

(** "query_pos n_heads d_head, key_pos n_heads d_head -> n_heads query_pos key_pos". *)
Definition raw_scores (self : t) (x : mat) : tensor3 :=
  tab (n_heads self) (fun h =>
    tab (length x) (fun q =>
      tab (length x) (fun k =>
        rsum (d_head self) (fun e => tget (queries self x) q h e * tget (keys self x) k h e)))).

(** [attn_pattern /= math.sqrt(self.W_Q.shape[-1])]. *)
Definition scale (self : t) (a : tensor3) : tensor3 :=
  map (map (map (fun s => s / sqrt (INR (d_head self))))) a.

(** [torch.triu(torch.ones(rows, cols), diagonal=1).bool()]: true exactly
    strictly above the main diagonal. *)
Definition triu1 (rows cols : nat) : list (list bool) :=
  tab rows (fun q => tab cols (fun k => (q <? k)%nat)).

(** [a.masked_fill_(mask, v)], the mask broadcast over the heads. *)
Definition masked_fill (a : tensor3) (mask : list (list bool)) (v : R) : tensor3 :=
  map (fun head => zipWith (zipWith (fun s (m : bool) => if m then v else s)) head mask) a.

(** [nn.Softmax(dim=-1)] on one row, over the reals.  In float32 the weight
    of an entry far enough below the row maximum underflows to exactly 0;
    what depends on that is stated for the model with the softmax left open
    (below, after [cross_entropy_lm]). *)
Definition softmax (row : vec) : vec :=
  let z := vsum (map exp row) in map (fun s => exp s / z) row.

(** The scores after scaling and masking, as they enter the softmax. *)
Definition masked_scores (self : t) (x : mat) : tensor3 :=
  let attn_pattern := raw_scores self x in
  let attn_pattern := scale self attn_pattern in
  let mask := triu1 (shape0 (nth 0 attn_pattern [])) (shape1 (nth 0 attn_pattern [])) in
  masked_fill attn_pattern mask (mask_val self).

Definition attn_pattern (self : t) (x : mat) : tensor3 :=
  map (map softmax) (masked_scores self x).

(** "n_heads query_pos key_pos, key_pos n_heads d_head -> n_heads query_pos d_head". *)
Definition context_vec (self : t) (x : mat) : tensor3 :=
  tab (n_heads self) (fun h =>
    tab (length x) (fun q =>
      tab (d_head self) (fun e =>
        rsum (length x) (fun k => tget (attn_pattern self x) h q k * tget (values self x) k h e)))).

(** "n_heads query_pos d_head, n_heads d_head d_model -> query_pos d_model",
    plus [b_O]. *)
Definition forward_seq (self : t) (x : mat) : mat :=
  tab (length x) (fun q =>
    tab (d_model self) (fun m =>
      rsum (n_heads self) (fun h =>
        rsum (d_head self) (fun e => tget (context_vec self x) h q e * tget (W_O self) h e m))
      + vget (b_O self) m)).

(** Every einsum of [forward] carries the batch axis through unchanged. *)
Definition forward (self : t) (resid_pre : tensor3) : tensor3 :=
  map (forward_seq self) resid_pre.

End SelfAttention.

(** ** 3. MLP *)

(** [0.5*input*(1.0 + tanh(math.sqrt(2.0/math.pi) * (input + 0.04715*input**3)))]. *)
Definition gelu_new (input : R) : R :=
  0.5 * input * (1.0 + tanh (sqrt (2.0 / PI) * (input + 0.04715 * input ^ 3))).

Module Linear.

(** [nn.Linear(in_features, out_features)]: [y = x W^T + b]. *)
Record t : Type := {
  in_features : nat;
  out_features : nat;
  weight : mat;   (* [out_features][in_features] *)
  lbias : vec     (* [out_features] *)
}.

Definition wf (d_in d_out : nat) (self : t) : Prop :=
  in_features self = d_in /\ out_features self = d_out /\
  has_shape2 d_out d_in (weight self) /\ has_shape1 d_out (lbias self).

(** torch's default initialisation of a linear layer draws the weight and
    then the bias from the generator (the distribution plays no role here). *)
Definition init (d_in d_out : nat) : Init t :=
  W <~ normal_mat d_out d_in 1 ;;
  b <~ normal_vec d_out 1 ;;
  _ <~ emit (Built CLinear) ;;
  ret {| in_features := d_in; out_features := d_out; weight := W; lbias := b |}.

Definition forward_vec (self : t) (x : vec) : vec :=
  tab (out_features self) (fun j =>
    rsum (in_features self) (fun i => vget x i * mget (weight self) j i) + vget (lbias self) j).

End Linear.

Module MLP.

Record t : Type := {
  input_layer : Linear.t;
  output_layer : Linear.t
}.

Definition act_fn : R -> R := gelu_new.

Definition wf (d_mlp d_model : nat) (self : t) : Prop :=
  Linear.wf d_model d_mlp (input_layer self) /\
  Linear.wf d_mlp d_model (output_layer self).

Definition init (d_mlp d_model : nat) : Init t :=
  l_in <~ Linear.init d_model d_mlp ;;
  l_out <~ Linear.init d_mlp d_model ;;
  _ <~ emit (Built CMLP) ;;
  ret {| input_layer := l_in; output_layer := l_out |}.

Definition forward_vec (self : t) (resid_attended : vec) : vec :=
  let pre_act := Linear.forward_vec (input_layer self) resid_attended in
  let act := map act_fn pre_act in
  Linear.forward_vec (output_layer self) act.

Definition forward (self : t) (resid_attended : tensor3) : tensor3 :=
  map (map (forward_vec self)) resid_attended.

End MLP.

(** ** 4. Transformer block *)

Module TransformerBlock.

Record t : Type := {
  ln1 : LayerNorm.t;
  attn : SelfAttention.t;
  ln2 : LayerNorm.t;
  mlp : MLP.t
}.

Definition wf (d_model d_mlp d_head n_heads : nat) (self : t) : Prop :=
  LayerNorm.wf d_model (ln1 self) /\
  SelfAttention.wf n_heads d_model d_head (attn self) /\
  LayerNorm.wf d_model (ln2 self) /\
  MLP.wf d_mlp d_model (mlp self).

Definition init (d_model d_mlp d_head n_heads : nat) : Init t :=
  l1 <~ LayerNorm.init d_model LayerNorm.default_init_std LayerNorm.default_layer_norm_eps ;;
  a <~ SelfAttention.init n_heads d_model d_head
         SelfAttention.default_mask_val SelfAttention.default_init_std ;;
  l2 <~ LayerNorm.init d_model LayerNorm.default_init_std LayerNorm.default_layer_norm_eps ;;
  m <~ MLP.init d_mlp d_model ;;
  _ <~ emit (Built CTransformerBlock) ;;
  ret {| ln1 := l1; attn := a; ln2 := l2; mlp := m |}.

Definition forward (self : t) (resid_pre : tensor3) : tensor3 :=
  let ln1_out := LayerNorm.forward (ln1 self) resid_pre in
  let attn_out := SelfAttention.forward (attn self) ln1_out in
  let resid_mid := tadd resid_pre attn_out in
  let ln2_out := LayerNorm.forward (ln2 self) resid_mid in
  let resid_post := tadd resid_mid (MLP.forward (mlp self) ln2_out) in
  resid_post.

End TransformerBlock.

(** ** 5. Full transformer *)

(** A Python value that can stand in [config.num_blocks]. *)
Inductive pyval : Type :=
| PyInt (z : Z)
| PyRange (n : nat)
| PyList (items : list Z).

(** [iter(v)], run to the end: an [int] is not iterable. *)
Definition py_iter (v : pyval) : result (list pyval) :=
  match v with
  | PyInt _ => Raise TypeError
  | PyRange n => Ok (tab n (fun i => PyInt (Z.of_nat i)))
  | PyList items => Ok (map PyInt items)
  end.

(** The attributes of a configuration object.  The sizes are natural numbers
    and the two floats are reals; [num_blocks] is [None] when the object has
    no such attribute. *)
Record Config : Type := {
  d_model : nat;
  d_head : nat;
  n_heads : nat;
  d_mlp : nat;
  d_vocab : nat;
  layer_norm_eps : R;
  init_std : R;
  max_ctx : nat;
  batch_size : nat;
  num_blocks : option pyval
}.

Definition MAX_CTX_LENGTH : nat := 512.
Definition BATCH_SIZE : nat := 4.

(** [Config()] as the notebook's dataclass defines it. *)
Definition notebook_Config : Config := {|
  d_model := 256;
  d_head := 64;
  n_heads := 5;
  d_mlp := 1024;
  d_vocab := 50257;
  layer_norm_eps := 1e-5;
  init_std := 0.02;
  max_ctx := MAX_CTX_LENGTH;
  batch_size := BATCH_SIZE;
  num_blocks := None
|}.

(** [config.num_blocks]. *)
Definition getattr_num_blocks (config : Config) : result pyval :=
  match num_blocks config with
  | Some v => Ok v
  | None => Raise AttributeError
  end.

(** [embedded + pos_embed]: both operands have the same batch and [d_model]
    sizes; on the position axis torch adds equal sizes element-wise, stretches
    a size of 1 to the other size, and raises RuntimeError otherwise. *)
Definition add_broadcast_pos (a b : tensor3) : result tensor3 :=
  let pa := shape1 a in
  let pb := shape1 b in
  if (pa =? pb)%nat then Ok (tadd a b)
  else if (pa =? 1)%nat then Ok (tadd (map (fun s => repeat (nth 0 s []) pb) a) b)
  else if (pb =? 1)%nat then Ok (tadd a (map (fun s => repeat (nth 0 s []) pa) b))
  else Raise RuntimeError.

Module Transformer.

Record t : Type := {
  embed : EmbeddingLayer.t;
  pos_embed : PositionEmbedding.t;
  transformer : list TransformerBlock.t;
  ln : LayerNorm.t;
  unembed : UnembeddingLayer.t
}.

Definition wf (c : Config) (self : t) : Prop :=
  EmbeddingLayer.wf (d_vocab c) (d_model c) (embed self) /\
  PositionEmbedding.wf (max_ctx c) (d_model c) (pos_embed self) /\
  Forall (TransformerBlock.wf (d_model c) (d_mlp c) (d_head c) (n_heads c))
         (transformer self) /\
  LayerNorm.wf (d_model c) (ln self) /\
  UnembeddingLayer.wf (d_vocab c) (d_model c) (unembed self).

(** [__init__]: the list comprehension evaluates [config.num_blocks],
    iterates it, and builds one block per item. *)
Definition init (config : Config) : Init t :=
  e <~ EmbeddingLayer.init (d_vocab config) (d_model config) (init_std config) ;;
  p <~ PositionEmbedding.init (max_ctx config) (d_model config) (init_std config) ;;
  nb <~ lift (getattr_num_blocks config) ;;
  items <~ lift (py_iter nb) ;;
  blocks <~ mapI (fun _ => TransformerBlock.init (d_model config) (d_mlp config)
                             (d_head config) (n_heads config)) items ;;
  l <~ LayerNorm.init (d_model config) (init_std config) (layer_norm_eps config) ;;
  u <~ UnembeddingLayer.init (d_vocab config) (d_model config) (init_std config) ;;
  _ <~ emit (Built CTransformer) ;;
  ret {| embed := e; pos_embed := p; transformer := blocks; ln := l; unembed := u |}.

(** [for i in range(len(self.transformer)): resid = self.transformer[i](resid)]. *)
Definition run_blocks (blocks : list TransformerBlock.t) (resid : tensor3) : tensor3 :=
  fold_left (fun r blk => TransformerBlock.forward blk r) blocks resid.

(** The residual stream that enters the first block. *)
Definition initial_resid (self : t) (tokens : token_tensor) : result tensor3 :=
  embedded <- EmbeddingLayer.forward (embed self) tokens ;;
  pos_embed <- PositionEmbedding.forward (pos_embed self) tokens ;;
  add_broadcast_pos embedded pos_embed.

Definition forward (self : t) (tokens : token_tensor) : result tensor3 :=
  embedded <- EmbeddingLayer.forward (embed self) tokens ;;
  pos_embed <- PositionEmbedding.forward (pos_embed self) tokens ;;
  resid <- add_broadcast_pos embedded pos_embed ;;
  let resid := run_blocks (transformer self) resid in
  let resid_normalized_final := LayerNorm.forward (ln self) resid in
  let logits := UnembeddingLayer.forward (unembed self) resid_normalized_final in
  Ok logits.

End Transformer.

(** ** 6. Training *)

(** [nn.LogSoftmax(dim=-1)] on one row. *)
Definition log_softmax (row : vec) : vec :=
  let lse := ln (vsum (map exp row)) in map (fun s => s - lse) row.

(** One entry of [torch.gather(input, dim=-1, index)]: the index selects along
    the last axis, must lie in [0, size) and is not counted from the end. *)
Definition gather_entry (row : vec) (id : Z) : result R :=
  if ((0 <=? id) && (id <? Z.of_nat (length row)))%Z
  then Ok (vget row (Z.to_nat id))
  else Raise RuntimeError.

(** One sequence of [torch.gather] along the last axis with an index of last
    size 1, followed by [squeeze(dim=-1)]: the output has the index's shape,
    and the index may not be longer than the input on the position axis. *)
Fixpoint gather_seq (rows : mat) (index : list Z) {struct index} : result vec :=
  match index, rows with
  | [], _ => Ok []
  | _ :: _, [] => Raise RuntimeError
  | id :: index', row :: rows' =>
      g <- gather_entry row id ;; gs <- gather_seq rows' index' ;; Ok (g :: gs)
  end.

(** The sequences of the batch, one after the other: the index may not have
    more sequences than the input. *)
Fixpoint gather_rows (input : tensor3) (index : token_tensor) {struct index} : result mat :=
  match index, input with
  | [], _ => Ok []
  | _ :: _, [] => Raise RuntimeError
  | ix :: index', x :: input' =>
      g <- gather_seq x ix ;; gs <- gather_rows input' index' ;; Ok (g :: gs)
  end.

(** An index tensor without any element. *)
Definition index_is_empty (index : token_tensor) : bool :=
  forallb (fun ix => match ix with [] => true | _ :: _ => false end) index.

(** [torch.gather(input, dim=-1, index).squeeze(dim=-1)] on the whole batch:
    for an index without any element torch returns the empty output of the
    index's shape before it compares any size; otherwise the sizes are
    compared and the entries are read. *)
Definition gather_batch (input : tensor3) (index : token_tensor) : result mat :=
  if index_is_empty index then Ok (map (fun _ => []) index)
  else gather_rows input index.

Definition cross_entropy_lm (logits : tensor3) (tokens : token_tensor) : result vec :=
  let log_probs := map (map log_softmax) logits in
  pred_log_probs <- gather_batch (map (@removelast vec) log_probs) (map (@tl Z) tokens) ;;
  Ok (map mean pred_log_probs).

(** ** The model with the softmax left open

    [nn.Softmax(dim=-1)] is a library function; the definitions of this
    section are those of [SelfAttention.forward], [TransformerBlock.forward]
    and [Transformer.forward] above with the function [sm] in its place on
    every row of scores.  With [SelfAttention.softmax] for [sm] they are the
    definitions above (lemmas [SelfAttention_forward_with_softmax] to
    [Transformer_forward_with_softmax]). *)

Section OpenSoftmax.

Variable sm : vec -> vec.

Definition attn_pattern_with (self : SelfAttention.t) (x : mat) : tensor3 :=
  map (map sm) (SelfAttention.masked_scores self x).

Definition context_vec_with (self : SelfAttention.t) (x : mat) : tensor3 :=
  tab (SelfAttention.n_heads self) (fun h =>
    tab (length x) (fun q =>
      tab (SelfAttention.d_head self) (fun e =>
        rsum (length x) (fun k =>
          tget (attn_pattern_with self x) h q k * tget (SelfAttention.values self x) k h e)))).

Definition forward_seq_with (self : SelfAttention.t) (x : mat) : mat :=
  tab (length x) (fun q =>
    tab (SelfAttention.d_model self) (fun m =>
      rsum (SelfAttention.n_heads self) (fun h =>
        rsum (SelfAttention.d_head self) (fun e =>
          tget (context_vec_with self x) h q e * tget (SelfAttention.W_O self) h e m))
      + vget (SelfAttention.b_O self) m)).

Definition SelfAttention_forward_with (self : SelfAttention.t) (resid_pre : tensor3) : tensor3 :=
  map (forward_seq_with self) resid_pre.

Definition TransformerBlock_forward_with
           (self : TransformerBlock.t) (resid_pre : tensor3) : tensor3 :=
  let ln1_out := LayerNorm.forward (TransformerBlock.ln1 self) resid_pre in
  let attn_out := SelfAttention_forward_with (TransformerBlock.attn self) ln1_out in
  let resid_mid := tadd resid_pre attn_out in
  let ln2_out := LayerNorm.forward (TransformerBlock.ln2 self) resid_mid in
  let resid_post := tadd resid_mid (MLP.forward (TransformerBlock.mlp self) ln2_out) in
  resid_post.

Definition run_blocks_with (blocks : list TransformerBlock.t) (resid : tensor3) : tensor3 :=
  fold_left (fun r blk => TransformerBlock_forward_with blk r) blocks resid.

Definition Transformer_forward_with
           (self : Transformer.t) (tokens : token_tensor) : result tensor3 :=
  embedded <- EmbeddingLayer.forward (Transformer.embed self) tokens ;;
  pos_embed <- PositionEmbedding.forward (Transformer.pos_embed self) tokens ;;
  resid <- add_broadcast_pos embedded pos_embed ;;
  let resid := run_blocks_with (Transformer.transformer self) resid in
  let resid_normalized_final := LayerNorm.forward (Transformer.ln self) resid in
  let logits := UnembeddingLayer.forward (Transformer.unembed self) resid_normalized_final in
  Ok logits.



End OpenSoftmax.





(** A softmax that underflows at 104: computed as torch does, the row maximum
    subtracted before the exponential, with an exponential that returns
    exactly 0 below [-104]. *)



(** ** The residual additions in float32

    IEEE 754 single precision: 24 bits of significand, exponents below 128,
    round to nearest even. *)

Definition f32 : Type := SpecFloat.spec_float.

Definition f32_of_Z (z : Z) : f32 := SpecFloat.binary_normalize 24 128 z 0 false.

Definition f32_add : f32 -> f32 -> f32 := SpecFloat.SFadd 24 128.

Definition f32_sub : f32 -> f32 -> f32 := SpecFloat.SFsub 24 128.

(** [TransformerBlock.forward] with the type of the residual stream, its
    addition and the four sublayers left open. *)
Definition TransformerBlock_dataflow {T : Type} (add : T -> T -> T)
           (ln1 attn ln2 mlp : T -> T) (resid_pre : T) : T :=
  let ln1_out := ln1 resid_pre in
  let attn_out := attn ln1_out in
  let resid_mid := add resid_pre attn_out in
  let ln2_out := ln2 resid_mid in
  let resid_post := add resid_mid (mlp ln2_out) in
  resid_post.

(** One entry of the residual stream through a block, in float32, for a
    block whose attention returns [attn_out] and whose MLP returns [mlp_out]
    at that entry whatever they are given (as the sublayers of [const_block]
    below do). *)
Definition f32_block_entry (attn_out mlp_out : f32) (resid_pre : f32) : f32 :=
  TransformerBlock_dataflow f32_add (fun r => r) (fun _ => attn_out)
                            (fun r => r) (fun _ => mlp_out) resid_pre.

(** ** Predicates and reference formulas used in the statements *)

(** A construction step that cannot raise and leaves the trace alone. *)
Definition silent {A : Type} (c : Init A) : Prop :=
  forall s, exists s' a, c s = (s', Ok a) /\ trace s' = trace s.

(** What the constructor has printed and built when it reaches the list
    comprehension over [config.num_blocks]. *)
Definition trace_before_blocks (config : Config) : list event :=
  [Printed [d_vocab config; d_model config]; Built CEmbeddingLayer;
   Printed [max_ctx config; d_model config]; Built CPositionEmbedding].

(** [returns c P]: the construction step [c] cannot raise, and its value
    satisfies [P]. *)
Definition returns {A : Type} (c : Init A) (P : A -> Prop) : Prop :=
  forall s, exists s' a, c s = (s', Ok a) /\ P a.

(** The row that torch's indexing selects for an admissible id. *)
Definition wrapped_row (W : mat) (id : Z) : vec :=
  nth (Z.to_nat (if (id <? 0)%Z then id + Z.of_nat (length W) else id)) W [].

(** The variance as the specification words it: the sum of the squared
    deviations divided by the number of entries. *)
Definition biased_var (x : vec) : R :=
  vsum (map (fun a => (a - mean x) * (a - mean x)) x) / INR (length x).

(** [LayerNorm.forward] on one position as the specification words it: mean
    and biased variance over the last axis, [(x - mean) / sqrt (variance + eps)],
    then the affine map with gain and bias. *)
Definition LayerNorm_forward_vec_biased (self : LayerNorm.t) (input : vec) : vec :=
  tab (length input) (fun i =>
    vget (LayerNorm.gains self) i
    * ((vget input i - mean input)
       / sqrt (biased_var input + LayerNorm.layer_norm_eps self))
    + vget (LayerNorm.bias self) i).

(** The reference formula of the specification:
    [0.5 * x * (1 + tanh (sqrt (2/pi) * (x + c * x^3)))] with the published
    coefficient [c = 0.044715]. *)
Definition gelu_new_reference (x : R) : R :=
  0.5 * x * (1 + tanh (sqrt (2 / PI) * (x + 0.044715 * x ^ 3))).

(** The id that torch's indexing reads for an id of [[-n, n)]. *)
Definition wrap_id (n : nat) (id : Z) : Z :=
  if (id <? 0)%Z then (id + Z.of_nat n)%Z else id.

(** The parameters of a block that do not come from the generator. *)
Definition block_defaults (dm dh nh : nat) (blk : TransformerBlock.t) : Prop :=
  LayerNorm.layer_norm_eps (TransformerBlock.ln1 blk) = 1e-5 /\
  LayerNorm.layer_norm_eps (TransformerBlock.ln2 blk) = 1e-5 /\
  LayerNorm.bias (TransformerBlock.ln1 blk) = zeros dm /\
  LayerNorm.bias (TransformerBlock.ln2 blk) = zeros dm /\
  SelfAttention.mask_val (TransformerBlock.attn blk) = -1e5 /\
  SelfAttention.b_Q (TransformerBlock.attn blk) = repeat (zeros dh) nh /\
  SelfAttention.b_K (TransformerBlock.attn blk) = repeat (zeros dh) nh /\
  SelfAttention.b_V (TransformerBlock.attn blk) = repeat (zeros dh) nh /\
  SelfAttention.b_O (TransformerBlock.attn blk) = zeros dm.

(** ** A small model

    One block, [d_model = 2], one head with [d_head = 1], [d_mlp = 1], a
    vocabulary of two tokens and a context of two positions. *)

Definition unit_ln : LayerNorm.t :=
  {| LayerNorm.gains := [1; 1]; LayerNorm.bias := [0; 0];
     LayerNorm.layer_norm_eps := 1e-5 |}.

Definition demo_attn : SelfAttention.t :=
  {| SelfAttention.n_heads := 1; SelfAttention.d_model := 2; SelfAttention.d_head := 1;
     SelfAttention.W_Q := [[[0]; [0]]]; SelfAttention.b_Q := [[-200000]];
     SelfAttention.W_K := [[[0]; [0]]]; SelfAttention.b_K := [[1]];
     SelfAttention.W_V := [[[1]; [0]]]; SelfAttention.b_V := [[0]];
     SelfAttention.W_O := [[[1; 0]]]; SelfAttention.b_O := [0; 0];
     SelfAttention.mask_val := -1e5 |}.

Definition demo_mlp : MLP.t :=
  {| MLP.input_layer :=
       {| Linear.in_features := 2; Linear.out_features := 1;
          Linear.weight := [[0; 0]]; Linear.lbias := [0] |};
     MLP.output_layer :=
       {| Linear.in_features := 1; Linear.out_features := 2;
          Linear.weight := [[0]; [0]]; Linear.lbias := [0; 0] |} |}.

Definition demo_block : TransformerBlock.t :=
  {| TransformerBlock.ln1 := unit_ln; TransformerBlock.attn := demo_attn;
     TransformerBlock.ln2 := unit_ln; TransformerBlock.mlp := demo_mlp |}.

Definition demo_model : Transformer.t :=
  {| Transformer.embed := {| EmbeddingLayer.W_E := [[0; 0]; [2; 0]] |};
     Transformer.pos_embed := {| PositionEmbedding.W_P := [[0; 0]; [0; 0]] |};
     Transformer.transformer := [demo_block];
     Transformer.ln := unit_ln;
     Transformer.unembed :=
       {| UnembeddingLayer.d_model := 2; UnembeddingLayer.d_vocab := 2;
          UnembeddingLayer.W_U := [[1; 0]; [0; 1]]; UnembeddingLayer.b_U := [0; 0] |} |}.

Definition demo_config : Config :=
  {| d_model := 2; d_head := 1; n_heads := 1; d_mlp := 1; d_vocab := 2;
     layer_norm_eps := 1e-5; init_std := 0.02; max_ctx := 2; batch_size := 1;
     num_blocks := Some (PyRange 1) |}.




(** A block whose sublayers return constants: the output projections of the
    attention and of the MLP are 0, the output bias of the attention is
    [1; 1] and that of the MLP is [0; 0]. *)
Definition const_attn : SelfAttention.t :=
  {| SelfAttention.n_heads := 1; SelfAttention.d_model := 2; SelfAttention.d_head := 1;
     SelfAttention.W_Q := [[[0]; [0]]]; SelfAttention.b_Q := [[0]];
     SelfAttention.W_K := [[[0]; [0]]]; SelfAttention.b_K := [[1]];
     SelfAttention.W_V := [[[1]; [0]]]; SelfAttention.b_V := [[0]];
     SelfAttention.W_O := [[[0; 0]]]; SelfAttention.b_O := [1; 1];
     SelfAttention.mask_val := -1e5 |}.

Definition const_block : TransformerBlock.t :=
  {| TransformerBlock.ln1 := unit_ln; TransformerBlock.attn := const_attn;
     TransformerBlock.ln2 := unit_ln; TransformerBlock.mlp := demo_mlp |}.

(** An attention with one head of [d_head = 4]: every query is [2; 2; 2; 2]
    and every key is [1; 1; 1; 1], so every raw score is 8 and every scaled
    score is 4. *)
Definition demo_attn4 : SelfAttention.t :=
  {| SelfAttention.n_heads := 1; SelfAttention.d_model := 2; SelfAttention.d_head := 4;
     SelfAttention.W_Q := [[[0; 0; 0; 0]; [0; 0; 0; 0]]]; SelfAttention.b_Q := [[2; 2; 2; 2]];
     SelfAttention.W_K := [[[0; 0; 0; 0]; [0; 0; 0; 0]]]; SelfAttention.b_K := [[1; 1; 1; 1]];
     SelfAttention.W_V := [[[1; 0; 0; 0]; [0; 0; 0; 0]]]; SelfAttention.b_V := [[0; 0; 0; 0]];
     SelfAttention.W_O := [[[1; 0]; [0; 0]; [0; 0]; [0; 0]]]; SelfAttention.b_O := [0; 0];
     SelfAttention.mask_val := -1e5 |}.

(** [demo_model] with a context of one position. *)
Definition demo_model_ctx1 : Transformer.t :=
  {| Transformer.embed := Transformer.embed demo_model;
     Transformer.pos_embed := {| PositionEmbedding.W_P := [[1; 1]] |};
     Transformer.transformer := [demo_block];
     Transformer.ln := unit_ln;
     Transformer.unembed := Transformer.unembed demo_model |}.

Definition demo_config_ctx1 : Config :=
  {| d_model := 2; d_head := 1; n_heads := 1; d_mlp := 1; d_vocab := 2;
     layer_norm_eps := 1e-5; init_std := 0.02; max_ctx := 1; batch_size := 1;
     num_blocks := Some (PyRange 1) |}.

(** * Properties *)

(** ** Lists built by [tab] and [zipWith] *)

Lemma length_tab {A : Type} (n : nat) (f : nat -> A) : length (tab n f) = n.
Proof. unfold tab. now rewrite length_map, length_seq. Qed.

Lemma nth_tab {A : Type} (n i : nat) (f : nat -> A) (d : A) :
  (i < n)%nat -> nth i (tab n f) d = f i.
Proof.
  intros Hi. unfold tab.
  rewrite (nth_indep _ d (f 0%nat)) by now rewrite length_map, length_seq.
  rewrite (map_nth f (seq 0 n) 0%nat i), seq_nth; auto.
Qed.

Lemma tab_ext {A : Type} (n : nat) (f g : nat -> A) :
  (forall i, (i < n)%nat -> f i = g i) -> tab n f = tab n g.
Proof.
  intros H. unfold tab. apply map_ext_in.
  intros i Hi. apply in_seq in Hi. apply H. lia.
Qed.

Lemma rsum_ext (n : nat) (f g : nat -> R) :
  (forall i, (i < n)%nat -> f i = g i) -> rsum n f = rsum n g.
Proof. intros H. unfold rsum. now rewrite (tab_ext n f g H). Qed.

Lemma Forall_tab {A : Type} (P : A -> Prop) (n : nat) (f : nat -> A) :
  (forall i, (i < n)%nat -> P (f i)) -> Forall P (tab n f).
Proof.
  intros H. unfold tab. apply Forall_forall. intros x Hx.
  apply in_map_iff in Hx. destruct Hx as [i [<- Hi]].
  apply in_seq in Hi. apply H. lia.
Qed.

Lemma length_zipWith {A B C : Type} (f : A -> B -> C) (l : list A) (l' : list B) :
  length l = length l' -> length (zipWith f l l') = length l.
Proof.
  revert l'. induction l as [|a l IH]; intros [|b l'] H; simpl in *; try discriminate; auto.
Qed.

Lemma nth_zipWith {A B C : Type} (f : A -> B -> C) (l : list A) (l' : list B)
      (i : nat) (da : A) (db : B) (dc : C) :
  (i < length l)%nat -> (i < length l')%nat ->
  nth i (zipWith f l l') dc = f (nth i l da) (nth i l' db).
Proof.
  revert l' i. induction l as [|a l IH]; intros [|b l'] [|i] Hl Hl'; simpl in *; try lia; auto.
  apply IH; lia.
Qed.

(** ** The constructor monad *)

Lemma silent_normal_vec (n : nat) (std : R) : silent (normal_vec n std).
Proof. intros s. unfold normal_vec. eexists _, _. split; reflexivity. Qed.

Lemma silent_mapI {A B : Type} (f : A -> Init B) (l : list A) :
  (forall a, silent (f a)) -> silent (mapI f l).
Proof.
  intros Hf. induction l as [|a l IH]; intros s; simpl.
  - exists s, []. split; reflexivity.
  - destruct (Hf a s) as (s1 & b & E1 & T1).
    destruct (IH s1) as (s2 & bs & E2 & T2).
    exists s2, (b :: bs). unfold bindI, ret. rewrite E1, E2. split; congruence.
Qed.

Lemma silent_normal_mat (r c : nat) (std : R) : silent (normal_mat r c std).
Proof. unfold normal_mat. apply silent_mapI. intros _. apply silent_normal_vec. Qed.

Lemma EmbeddingLayer_init_trace (dv dm : nat) (std : R) (s : init_state) :
  exists s' e, EmbeddingLayer.init dv dm std s = (s', Ok e) /\
    trace s' = trace s ++ [Printed [dv; dm]; Built CEmbeddingLayer].
Proof.
  destruct (silent_normal_mat dv dm std s) as (s1 & W & E & T).
  unfold EmbeddingLayer.init, bindI. rewrite E. simpl.
  eexists _, _. split; [reflexivity|]. simpl. rewrite T, <- app_assoc. reflexivity.
Qed.

Lemma PositionEmbedding_init_trace (mc dm : nat) (std : R) (s : init_state) :
  exists s' e, PositionEmbedding.init mc dm std s = (s', Ok e) /\
    trace s' = trace s ++ [Printed [mc; dm]; Built CPositionEmbedding].
Proof.
  destruct (silent_normal_mat mc dm std s) as (s1 & W & E & T).
  unfold PositionEmbedding.init, bindI. rewrite E. simpl.
  eexists _, _. split; [reflexivity|]. simpl. rewrite T, <- app_assoc. reflexivity.
Qed.

Lemma Transformer_init_stops (config : Config) (e : exn) (s : init_state) :
  (nb <- getattr_num_blocks config ;; py_iter nb) = Raise e ->
  exists s', Transformer.init config s = (s', Raise e) /\
    trace s' = trace s ++ trace_before_blocks config.
Proof.
  intros H.
  destruct (EmbeddingLayer_init_trace (d_vocab config) (d_model config) (init_std config) s)
    as (s1 & em & E1 & T1).
  destruct (PositionEmbedding_init_trace (max_ctx config) (d_model config) (init_std config) s1)
    as (s2 & pe & E2 & T2).
  exists s2. split.
  - unfold Transformer.init, bindI at 1. rewrite E1.
    unfold bindI at 1. rewrite E2.
    unfold bindI, lift. destruct (getattr_num_blocks config) as [nb|e']; simpl in H.
    + rewrite H. reflexivity.
    + congruence.
  - rewrite T2, T1, <- app_assoc. reflexivity.
Qed.

(** C10.  A configuration whose [num_blocks] is an integer makes the
    constructor raise TypeError when it iterates [config.num_blocks], after the
    embedding and positional layers and before any block is built; and the
    notebook's [Config()], which has no [num_blocks] attribute, makes it raise
    AttributeError at the same point. *)
Theorem Transformer_init_fails_before_blocks :
  (forall (config : Config) (z : Z) (s : init_state),
      num_blocks config = Some (PyInt z) ->
      exists s', Transformer.init config s = (s', Raise TypeError) /\
        trace s' = trace s ++ trace_before_blocks config /\
        ~ In (Built CTransformerBlock) (trace_before_blocks config)) /\
  (forall s : init_state,
      exists s', Transformer.init notebook_Config s = (s', Raise AttributeError) /\
        trace s' = trace s ++ trace_before_blocks notebook_Config).
Proof.
  split.
  - intros config z s Hnb.
    destruct (Transformer_init_stops config TypeError s) as (s' & E & T).
    + unfold getattr_num_blocks. rewrite Hnb. reflexivity.
    + exists s'. repeat split; auto.
      unfold trace_before_blocks. simpl. intros [H|[H|[H|[H|[]]]]]; discriminate.
  - intros s. apply Transformer_init_stops. reflexivity.
Qed.

(** ** Constructed models have the shapes the configuration names *)

Lemma returns_ret {A : Type} (a : A) (P : A -> Prop) : P a -> returns (ret a) P.
Proof. intros H s. exists s, a. split; auto. Qed.

Lemma returns_bind {A B : Type} (c : Init A) (k : A -> Init B)
      (P : A -> Prop) (Q : B -> Prop) :
  returns c P -> (forall a, P a -> returns (k a) Q) -> returns (bindI c k) Q.
Proof.
  intros Hc Hk s. destruct (Hc s) as (s1 & a & E1 & Pa).
  destruct (Hk a Pa s1) as (s2 & b & E2 & Qb).
  exists s2, b. unfold bindI. rewrite E1. auto.
Qed.

Lemma returns_emit (ev : event) : returns (emit ev) (fun _ => True).
Proof. intros s. eexists _, tt. split; [reflexivity|exact I]. Qed.

Lemma returns_mapI {A B : Type} (f : A -> Init B) (P : B -> Prop) (l : list A) :
  (forall a, returns (f a) P) ->
  returns (mapI f l) (fun bs => length bs = length l /\ Forall P bs).
Proof.
  intros Hf. induction l as [|a l IH]; simpl.
  - apply returns_ret. auto.
  - eapply returns_bind; [apply Hf|]. intros b Pb.
    eapply returns_bind; [apply IH|]. intros bs [Hlen Hall].
    apply returns_ret. simpl. auto.
Qed.

Lemma returns_normal_vec (n : nat) (std : R) :
  returns (normal_vec n std) (has_shape1 n).
Proof.
  intros s. unfold normal_vec. eexists _, _. split; [reflexivity|].
  apply length_tab.
Qed.

Lemma returns_normal_mat (r c : nat) (std : R) :
  returns (normal_mat r c std) (has_shape2 r c).
Proof.
  intros s.
  destruct (returns_mapI (fun _ : nat => normal_vec c std) (has_shape1 c) (seq 0 r)
              (fun _ => returns_normal_vec c std) s) as (s' & m & E & Hlen & Hall).
  exists s', m. split; [exact E|]. split; auto. now rewrite Hlen, length_seq.
Qed.

Lemma returns_normal_tensor3 (a r c : nat) (std : R) :
  returns (normal_tensor3 a r c std) (has_shape3 a r c).
Proof.
  intros s.
  destruct (returns_mapI (fun _ : nat => normal_mat r c std) (has_shape2 r c) (seq 0 a)
              (fun _ => returns_normal_mat r c std) s) as (s' & m & E & Hlen & Hall).
  exists s', m. split; [exact E|]. split; auto. now rewrite Hlen, length_seq.
Qed.

Lemma has_shape1_zeros (n : nat) : has_shape1 n (zeros n).
Proof. apply repeat_length. Qed.

Lemma has_shape2_zeros (r c : nat) : has_shape2 r c (repeat (zeros c) r).
Proof.
  split; [apply repeat_length|]. apply Forall_forall. intros v Hv.
  apply repeat_spec in Hv. subst v. apply has_shape1_zeros.
Qed.

Ltac step_init lem :=
  eapply returns_bind; [apply lem|]; intros ? ?.

Ltac step_emit :=
  eapply returns_bind; [apply returns_emit|]; intros _ _.

Lemma returns_EmbeddingLayer_init (dv dm : nat) (std : R) :
  returns (EmbeddingLayer.init dv dm std) (EmbeddingLayer.wf dv dm).
Proof.
  unfold EmbeddingLayer.init. step_init returns_normal_mat.
  do 2 step_emit. apply returns_ret. assumption.
Qed.

Lemma returns_PositionEmbedding_init (mc dm : nat) (std : R) :
  returns (PositionEmbedding.init mc dm std) (PositionEmbedding.wf mc dm).
Proof.
  unfold PositionEmbedding.init. step_init returns_normal_mat.
  do 2 step_emit. apply returns_ret. assumption.
Qed.

Lemma returns_UnembeddingLayer_init (dv dm : nat) (std : R) :
  returns (UnembeddingLayer.init dv dm std) (UnembeddingLayer.wf dv dm).
Proof.
  unfold UnembeddingLayer.init. step_init returns_normal_mat.
  step_emit. apply returns_ret. repeat split; simpl; auto using has_shape1_zeros; apply H.
Qed.

Lemma returns_LayerNorm_init (dm : nat) (std eps : R) :
  returns (LayerNorm.init dm std eps) (LayerNorm.wf dm).
Proof.
  unfold LayerNorm.init. step_init returns_normal_vec.
  step_emit. apply returns_ret. split; simpl; auto using has_shape1_zeros.
Qed.

Lemma returns_SelfAttention_init (nh dm dh : nat) (mask std : R) :
  returns (SelfAttention.init nh dm dh mask std) (SelfAttention.wf nh dm dh).
Proof.
  unfold SelfAttention.init. do 4 step_init returns_normal_tensor3.
  step_emit. apply returns_ret.
  unfold SelfAttention.wf; simpl.
  repeat match goal with
         | |- _ /\ _ => split
         end; auto using has_shape1_zeros, has_shape2_zeros.
Qed.

Lemma returns_Linear_init (d_in d_out : nat) :
  returns (Linear.init d_in d_out) (Linear.wf d_in d_out).
Proof.
  unfold Linear.init. step_init returns_normal_mat. step_init returns_normal_vec.
  step_emit. apply returns_ret. repeat split; simpl; auto; apply H.
Qed.

Lemma returns_MLP_init (dmlp dm : nat) :
  returns (MLP.init dmlp dm) (MLP.wf dmlp dm).
Proof.
  unfold MLP.init. do 2 step_init returns_Linear_init.
  step_emit. apply returns_ret. split; assumption.
Qed.

Lemma returns_TransformerBlock_init (dm dmlp dh nh : nat) :
  returns (TransformerBlock.init dm dmlp dh nh) (TransformerBlock.wf dm dmlp dh nh).
Proof.
  unfold TransformerBlock.init.
  step_init returns_LayerNorm_init. step_init returns_SelfAttention_init.
  step_init returns_LayerNorm_init. step_init returns_MLP_init.
  step_emit. apply returns_ret. unfold TransformerBlock.wf; simpl. auto.
Qed.

(** X21.  With an iterable [num_blocks] the constructor succeeds: it builds
    one block per item, and every layer has the shapes of the configuration. *)
Lemma Transformer_init_iterable (config : Config) (nb : pyval) (items : list pyval) :
  num_blocks config = Some nb -> py_iter nb = Ok items ->
  returns (Transformer.init config)
          (fun m => Transformer.wf config m /\
                    length (Transformer.transformer m) = length items).
Proof.
  intros Hnb Hit. unfold Transformer.init.
  step_init returns_EmbeddingLayer_init. step_init returns_PositionEmbedding_init.
  unfold getattr_num_blocks. rewrite Hnb.
  eapply returns_bind with (P := fun v => v = nb).
  { intros s. exists s, nb. auto. }
  intros ? ->. rewrite Hit.
  eapply returns_bind with (P := fun v => v = items).
  { intros s. exists s, items. auto. }
  intros ? ->.
  eapply returns_bind.
  { apply returns_mapI. intros _. apply returns_TransformerBlock_init. }
  intros blocks [Hlen Hall].
  step_init returns_LayerNorm_init. step_init returns_UnembeddingLayer_init.
  step_emit. apply returns_ret. unfold Transformer.wf; simpl. auto 10.
Qed.

Lemma Transformer_init_fails_before_blocks_witness :
  exists s',
    Transformer.init
      {| d_model := 2; d_head := 1; n_heads := 1; d_mlp := 1; d_vocab := 2;
         layer_norm_eps := 1e-5; init_std := 0.02; max_ctx := 2; batch_size := 1;
         num_blocks := Some (PyInt 1) |}
      {| generator := fun _ => 0; trace := [] |} = (s', Raise TypeError) /\
    trace s' = [Printed [2; 2]%nat; Built CEmbeddingLayer;
                Printed [2; 2]%nat; Built CPositionEmbedding].
Proof.
  destruct (proj1 Transformer_init_fails_before_blocks
              {| d_model := 2; d_head := 1; n_heads := 1; d_mlp := 1; d_vocab := 2;
                 layer_norm_eps := 1e-5; init_std := 0.02; max_ctx := 2; batch_size := 1;
                 num_blocks := Some (PyInt 1) |}
              1%Z {| generator := fun _ => 0; trace := [] |} eq_refl)
    as (s' & E & T & _).
  exists s'. split; [exact E | exact T].
Defined.

(** ** The error monad on lists *)

Lemma mapM_ok {A B : Type} (f : A -> result B) (g : A -> B) (l : list A) :
  Forall (fun a => f a = Ok (g a)) l -> mapM f l = Ok (map g l).
Proof.
  induction 1 as [|a l Ha _ IH]; simpl; [reflexivity|].
  rewrite Ha, IH. reflexivity.
Qed.

Lemma mapM_raise {A B : Type} (f : A -> result B) (e : exn) (l : list A) :
  (forall a e', f a = Raise e' -> e' = e) ->
  Exists (fun a => f a = Raise e) l -> mapM f l = Raise e.
Proof.
  intros Hf. induction 1 as [a l Ha | a l _ IH]; simpl.
  - rewrite Ha. reflexivity.
  - destruct (f a) as [b|e'] eqn:E; simpl.
    + rewrite IH. reflexivity.
    + now rewrite (Hf a e' E).
Qed.

Lemma mapM_only_raises {A B : Type} (f : A -> result B) (e : exn) (l : list A) :
  (forall a e', f a = Raise e' -> e' = e) ->
  forall e', mapM f l = Raise e' -> e' = e.
Proof.
  intros Hf. induction l as [|a l IH]; simpl; intros e' H; [discriminate|].
  destruct (f a) as [b|e1] eqn:E; simpl in H.
  - destruct (mapM f l) as [bs|e2]; simpl in H; [discriminate|].
    injection H as <-. now apply IH.
  - injection H as <-. now apply (Hf a).
Qed.

(** ** EmbeddingLayer *)

Lemma index_row_in_range (W : mat) (id : Z) :
  (- Z.of_nat (length W) <= id < Z.of_nat (length W))%Z ->
  EmbeddingLayer.index_row W id = Ok (wrapped_row W id).
Proof.
  intros H. unfold EmbeddingLayer.index_row, wrapped_row.
  replace ((- Z.of_nat (length W) <=? id) && (id <? Z.of_nat (length W)))%Z%bool with true
    by (symmetry; apply andb_true_iff; split; [apply Z.leb_le | apply Z.ltb_lt]; lia).
  set (k := Z.to_nat _).
  assert (Hk : (k < length W)%nat).
  { subst k. destruct (id <? 0)%Z eqn:E; [apply Z.ltb_lt in E | apply Z.ltb_ge in E]; lia. }
  destruct (nth_error W k) as [row|] eqn:En.
  - now rewrite (nth_error_nth W k [] En).
  - apply nth_error_None in En. lia.
Qed.

Lemma index_row_out_of_range (W : mat) (id : Z) :
  (id < - Z.of_nat (length W) \/ Z.of_nat (length W) <= id)%Z ->
  EmbeddingLayer.index_row W id = Raise IndexError.
Proof.
  intros H. unfold EmbeddingLayer.index_row.
  replace ((- Z.of_nat (length W) <=? id) && (id <? Z.of_nat (length W)))%Z%bool with false;
    [reflexivity|].
  symmetry. apply andb_false_iff.
  destruct H; [left; apply Z.leb_gt | right; apply Z.ltb_ge]; lia.
Qed.

Lemma index_row_only_IndexError (W : mat) (id : Z) (e : exn) :
  EmbeddingLayer.index_row W id = Raise e -> e = IndexError.
Proof.
  unfold EmbeddingLayer.index_row.
  destruct (_ && _)%bool; [destruct (nth_error _ _)|]; congruence.
Qed.

Lemma wrapped_row_shape (dv dm : nat) (W : mat) (id : Z) :
  has_shape2 dv dm W -> (- Z.of_nat dv <= id < Z.of_nat dv)%Z ->
  has_shape1 dm (wrapped_row W id).
Proof.
  intros [Hlen Hrows] Hid. unfold wrapped_row.
  rewrite Forall_forall in Hrows. apply Hrows, nth_In. rewrite Hlen.
  destruct (id <? 0)%Z eqn:E; [apply Z.ltb_lt in E | apply Z.ltb_ge in E]; lia.
Qed.

(** C9, the claim as stated fails: on a table of two rows the id [-1] is not
    rejected, it selects the last row. *)
Lemma EmbeddingLayer_negative_id_wraps :
  (-1 < 0)%Z /\
  EmbeddingLayer.forward {| EmbeddingLayer.W_E := [[1; 2]; [3; 4]] |} [[(-1)%Z]]
    = Ok [[[3; 4]]] /\
  EmbeddingLayer.forward {| EmbeddingLayer.W_E := [[1; 2]; [3; 4]] |} [[(-1)%Z]]
    <> Raise IndexError.
Proof.
  split; [lia|]. split; [reflexivity | discriminate].
Qed.

(** C9, amended.  With a table of [d_vocab] rows, [EmbeddingLayer.forward]
    returns for ids in [[-d_vocab, d_vocab)] the selected rows, a negative id
    counted from the end of the table (so for ids in [[0, d_vocab)] the rows
    of those ids), in shape [batch, position, d_model]; it raises IndexError
    as soon as one id lies outside [[-d_vocab, d_vocab)].  It is a function of
    the table and the ids alone. *)
Theorem EmbeddingLayer_forward_spec
        (self : EmbeddingLayer.t) (dv dm b p : nat) (toks : token_tensor) :
  EmbeddingLayer.wf dv dm self -> tokens_shape b p toks ->
  (Forall (Forall (fun id => (- Z.of_nat dv <= id < Z.of_nat dv)%Z)) toks ->
     EmbeddingLayer.forward self toks
       = Ok (map (map (wrapped_row (EmbeddingLayer.W_E self))) toks) /\
     has_shape3 b p dm (map (map (wrapped_row (EmbeddingLayer.W_E self))) toks)) /\
  (valid_ids dv toks ->
     EmbeddingLayer.forward self toks
       = Ok (map (map (fun id => nth (Z.to_nat id) (EmbeddingLayer.W_E self) [])) toks)) /\
  (Exists (Exists (fun id => (id < - Z.of_nat dv \/ Z.of_nat dv <= id)%Z)) toks ->
     EmbeddingLayer.forward self toks = Raise IndexError).
Proof.
  intros Hwf [Hb Hp]. pose proof Hwf as [Hlen Hrows].
  unfold EmbeddingLayer.forward. repeat split.
  - apply mapM_ok. eapply Forall_impl; [|exact H]. intros r Hr.
    apply mapM_ok. eapply Forall_impl; [|exact Hr]. intros id Hid.
    apply index_row_in_range. now rewrite Hlen.
  - now rewrite length_map.
  - apply Forall_forall. intros m Hm. apply in_map_iff in Hm.
    destruct Hm as (r & <- & Hr). rewrite Forall_forall in Hp, H. split.
    + rewrite length_map. now apply Hp.
    + apply Forall_forall. intros v Hv. apply in_map_iff in Hv.
      destruct Hv as (id & <- & Hid). apply (wrapped_row_shape dv); auto.
      specialize (H r Hr). rewrite Forall_forall in H. now apply H.
  - intros Hv. apply mapM_ok. eapply Forall_impl; [|exact Hv]. intros r Hr.
    apply mapM_ok. eapply Forall_impl; [|exact Hr]. intros id Hid. simpl in Hid.
    rewrite index_row_in_range by (rewrite Hlen; lia).
    unfold wrapped_row. destruct (id <? 0)%Z eqn:E; [apply Z.ltb_lt in E; lia | reflexivity].
  - intros Hex. apply mapM_raise.
    + intros r e'. apply mapM_only_raises. intros id e''. apply index_row_only_IndexError.
    + eapply Exists_impl; [|exact Hex]. intros r Hr. apply mapM_raise.
      * intros id e'. apply index_row_only_IndexError.
      * eapply Exists_impl; [|exact Hr]. intros id Hid. simpl in Hid.
        apply index_row_out_of_range. now rewrite Hlen.
Qed.

Lemma EmbeddingLayer_forward_spec_witness :
  EmbeddingLayer.forward {| EmbeddingLayer.W_E := [[1; 2]; [3; 4]] |} [[0%Z; (-2)%Z]]
    = Ok [[[1; 2]; [1; 2]]] /\
  EmbeddingLayer.forward {| EmbeddingLayer.W_E := [[1; 2]; [3; 4]] |} [[0%Z; 2%Z]]
    = Raise IndexError.
Proof.
  split.
  - refine (proj1 (proj1 (EmbeddingLayer_forward_spec
                            {| EmbeddingLayer.W_E := [[1; 2]; [3; 4]] |} 2 2 1 2
                            [[0%Z; (-2)%Z]] _ _) _)).
    + split; [reflexivity | repeat constructor].
    + split; [reflexivity | repeat constructor].
    + repeat constructor; simpl; lia.
  - refine (proj2 (proj2 (EmbeddingLayer_forward_spec
                            {| EmbeddingLayer.W_E := [[1; 2]; [3; 4]] |} 2 2 1 2
                            [[0%Z; 2%Z]] _ _)) _).
    + split; [reflexivity | repeat constructor].
    + split; [reflexivity | repeat constructor].
    + apply Exists_cons_hd, Exists_cons_tl, Exists_cons_hd. simpl. lia.
Defined.

(** ** PositionEmbedding *)

(** C8, the claim as stated fails: with a table of [max_ctx = 2] rows and a
    token tensor of 3 positions, [PositionEmbedding.forward] raises nothing
    and returns the two rows of the table. *)
Lemma PositionEmbedding_truncates_silently :
  (2 < shape1 [[0%Z; 0%Z; 0%Z]])%nat /\
  PositionEmbedding.forward {| PositionEmbedding.W_P := [[1; 2]; [3; 4]] |}
                            [[0%Z; 0%Z; 0%Z]]
    = Ok [[[1; 2]; [3; 4]]] /\
  forall e, PositionEmbedding.forward {| PositionEmbedding.W_P := [[1; 2]; [3; 4]] |}
                                      [[0%Z; 0%Z; 0%Z]] <> Raise e.
Proof.
  split; [simpl; lia|]. split; [reflexivity | discriminate].
Qed.

(** A slice that asks for more rows than the table has returns the table. *)
Lemma PositionEmbedding_forward_clamped
      (self : PositionEmbedding.t) (mc dm b p : nat) (toks : token_tensor) :
  PositionEmbedding.wf mc dm self -> tokens_shape b p toks -> (mc < p)%nat ->
  PositionEmbedding.forward self toks = Ok (repeat (PositionEmbedding.W_P self) b) /\
  has_shape3 b mc dm (repeat (PositionEmbedding.W_P self) b).
Proof.
  intros Hwf [Hb Hp] Hlt. split.
  - unfold PositionEmbedding.forward, PositionEmbedding.slice_to, shape0. rewrite Hb.
    destruct toks as [|r toks]; simpl in *.
    + subst b. reflexivity.
    + inversion Hp; subst. rewrite firstn_all2; [reflexivity|].
      destruct Hwf as [Hlen _]. lia.
  - split; [apply repeat_length|]. apply Forall_forall. intros m Hm.
    apply repeat_spec in Hm. subst m. exact Hwf.
Qed.

(** C8, amended.  For a token tensor whose position count exceeds
    [max_ctx], [PositionEmbedding.forward] does not raise: the slice stops at
    the end of the table, and the result is the whole table of [max_ctx] rows
    replicated over the batch, of shape [batch, max_ctx, d_model]. *)
Theorem PositionEmbedding_forward_too_long
        (self : PositionEmbedding.t) (mc dm b p : nat) (toks : token_tensor) :
  PositionEmbedding.wf mc dm self -> tokens_shape b p toks -> (mc < p)%nat ->
  PositionEmbedding.forward self toks = Ok (repeat (PositionEmbedding.W_P self) b) /\
  has_shape3 b mc dm (repeat (PositionEmbedding.W_P self) b) /\
  forall e : exn, PositionEmbedding.forward self toks <> Raise e.
Proof.
  intros Hwf Htok Hlt.
  destruct (PositionEmbedding_forward_clamped self mc dm b p toks Hwf Htok Hlt) as [E S].
  repeat split; try assumption; try apply S.
  intros e. rewrite E. discriminate.
Qed.

Lemma PositionEmbedding_forward_too_long_witness :
  PositionEmbedding.forward {| PositionEmbedding.W_P := [[1; 2]; [3; 4]] |}
                            [[0%Z; 0%Z; 0%Z]; [1%Z; 1%Z; 1%Z]]
    = Ok [[[1; 2]; [3; 4]]; [[1; 2]; [3; 4]]].
Proof.
  refine (proj1 (PositionEmbedding_forward_too_long
                   {| PositionEmbedding.W_P := [[1; 2]; [3; 4]] |} 2 2 2 3
                   [[0%Z; 0%Z; 0%Z]; [1%Z; 1%Z; 1%Z]] _ _ _)).
  - split; [reflexivity | repeat constructor].
  - split; [reflexivity | repeat constructor].
  - lia.
Defined.

(** For a position count within the table the result is the first
    [position] rows, replicated over the batch. *)
Lemma PositionEmbedding_forward_shape
      (self : PositionEmbedding.t) (mc dm b p : nat) (toks : token_tensor) :
  PositionEmbedding.wf mc dm self -> tokens_shape b p toks -> (1 <= b)%nat -> (p <= mc)%nat ->
  PositionEmbedding.forward self toks = Ok (repeat (firstn p (PositionEmbedding.W_P self)) b) /\
  has_shape3 b p dm (repeat (firstn p (PositionEmbedding.W_P self)) b).
Proof.
  intros [Hlen Hrows] [Hb Hp] Hb1 Hle. split.
  - unfold PositionEmbedding.forward, PositionEmbedding.slice_to, shape0. rewrite Hb.
    destruct toks as [|r toks]; simpl in *; [lia|].
    inversion Hp; subst. reflexivity.
  - split; [apply repeat_length|]. apply Forall_forall. intros m Hm.
    apply repeat_spec in Hm. subst m. split.
    + rewrite length_firstn. lia.
    + apply Forall_forall. intros v Hv. rewrite Forall_forall in Hrows.
      apply Hrows. rewrite <- (firstn_skipn p (PositionEmbedding.W_P self)).
      apply in_or_app. now left.
Qed.

(** ** cross_entropy_lm *)

Lemma tab_S {A : Type} (n : nat) (f : nat -> A) :
  tab (S n) f = f 0%nat :: tab n (fun i => f (S i)).
Proof. unfold tab. simpl. now rewrite <- seq_shift, map_map. Qed.

Lemma map_tab {A B : Type} (g : A -> B) (n : nat) (f : nat -> A) :
  map g (tab n f) = tab n (fun i => g (f i)).
Proof. unfold tab. now rewrite map_map. Qed.

Lemma length_removelast {A : Type} (l : list A) :
  length (removelast l) = (length l - 1)%nat.
Proof. rewrite removelast_firstn_len, length_firstn. lia. Qed.

Lemma nth_removelast {A : Type} (l : list A) (i : nat) (d : A) :
  (i < length l - 1)%nat -> nth i (removelast l) d = nth i l d.
Proof.
  intros H. rewrite removelast_firstn_len, nth_firstn.
  destruct (Nat.ltb_spec i (pred (length l))); [reflexivity | lia].
Qed.

Lemma nth_tl {A : Type} (l : list A) (i : nat) (d : A) :
  nth i (tl l) d = nth (S i) l d.
Proof. destruct l; simpl; [destruct i|]; reflexivity. Qed.

Lemma nth_map_nil {A B : Type} (f : list A -> list B) (l : list (list A)) (n : nat) :
  f [] = [] -> nth n (map f l) [] = f (nth n l []).
Proof. intros H. rewrite <- H at 1. apply map_nth. Qed.

Lemma vget_map (f : R -> R) (v : vec) (i : nat) :
  (i < length v)%nat -> vget (map f v) i = f (vget v i).
Proof.
  intros H. unfold vget.
  rewrite (nth_indep _ 0 (f 0)) by now rewrite length_map.
  apply map_nth.
Qed.

Lemma gather_seq_ok (g : nat -> R) (index : list Z) (rows : mat) :
  (length index <= length rows)%nat ->
  (forall i, (i < length index)%nat ->
             gather_entry (nth i rows []) (nth i index 0%Z) = Ok (g i)) ->
  gather_seq rows index = Ok (tab (length index) g).
Proof.
  revert g rows. induction index as [|id index IH]; intros g rows Hlen H; [reflexivity|].
  destruct rows as [|row rows]; simpl in Hlen; [lia|].
  pose proof (H 0%nat ltac:(simpl; lia)) as H0. simpl in H0.
  simpl gather_seq. rewrite H0. simpl.
  rewrite (IH (fun i => g (S i)) rows).
  - simpl. now rewrite tab_S.
  - lia.
  - intros i Hi. apply (H (S i)). simpl. lia.
Qed.

Lemma gather_rows_ok (g : nat -> vec) (index : token_tensor) (input : tensor3) :
  (length index <= length input)%nat ->
  (forall n, (n < length index)%nat ->
             gather_seq (nth n input []) (nth n index []) = Ok (g n)) ->
  gather_rows input index = Ok (tab (length index) g).
Proof.
  revert g input. induction index as [|ix index IH]; intros g input Hlen H; [reflexivity|].
  destruct input as [|x input]; simpl in Hlen; [lia|].
  pose proof (H 0%nat ltac:(simpl; lia)) as H0. simpl in H0.
  simpl gather_rows. rewrite H0. simpl.
  rewrite (IH (fun n => g (S n)) input).
  - simpl. now rewrite tab_S.
  - lia.
  - intros n Hn. apply (H (S n)). simpl. lia.
Qed.

Lemma index_is_empty_nth (index : token_tensor) (n : nat) :
  index_is_empty index = true -> nth n index [] = [].
Proof.
  unfold index_is_empty. revert n.
  induction index as [|ix index IH]; intros n H; [now destruct n|].
  simpl in H. apply andb_true_iff in H. destruct H as [H1 H2].
  destruct n as [|n]; simpl; [|now apply IH].
  destruct ix; [reflexivity | discriminate].
Qed.

Lemma gather_batch_ok (g : nat -> vec) (index : token_tensor) (input : tensor3) :
  (length index <= length input)%nat ->
  (forall n, (n < length index)%nat ->
             gather_seq (nth n input []) (nth n index []) = Ok (g n)) ->
  gather_batch input index = Ok (tab (length index) g).
Proof.
  intros Hlen H. unfold gather_batch.
  destruct (index_is_empty index) eqn:E; [|now apply gather_rows_ok].
  f_equal. apply (nth_ext _ _ [] []); [now rewrite length_map, length_tab|].
  rewrite length_map. intros n Hn. rewrite nth_tab by assumption.
  rewrite (nth_map_nil (fun _ : list Z => @nil R)) by reflexivity.
  specialize (H n Hn). rewrite (index_is_empty_nth _ n E) in H. simpl in H. congruence.
Qed.

Lemma nth_has_shape2 (b p d n : nat) (x : tensor3) :
  has_shape3 b p d x -> (n < b)%nat -> has_shape2 p d (nth n x []).
Proof.
  intros [Hlen Hall] Hn. rewrite Forall_forall in Hall. apply Hall, nth_In. lia.
Qed.

Lemma nth_has_shape1 (p d i : nat) (x : mat) :
  has_shape2 p d x -> (i < p)%nat -> has_shape1 d (nth i x []).
Proof.
  intros [Hlen Hall] Hi. rewrite Forall_forall in Hall. apply Hall, nth_In. lia.
Qed.

(** C7.  On logits of shape [batch, position, d_vocab] and tokens of shape
    [batch, position] (ids of the vocabulary, position >= 2),
    [cross_entropy_lm] returns, for each sequence [n], the mean over the
    positions [i < position - 1] of the log-softmax, over the vocabulary
    axis, of [logits[n][i]] taken at token [tokens[n][i+1]]; the mean is not
    negated, and the result has shape [batch]. *)
Theorem cross_entropy_lm_spec (logits : tensor3) (tokens : token_tensor) (b p V : nat) :
  has_shape3 b p V logits -> tokens_shape b p tokens -> valid_ids V tokens ->
  (2 <= p)%nat ->
  cross_entropy_lm logits tokens =
    Ok (tab b (fun n =>
          rsum (p - 1) (fun i =>
            tget logits n i (Z.to_nat (nth (S i) (nth n tokens []) 0%Z))
            - ln (vsum (map exp (nth i (nth n logits []) []))))
          / INR (p - 1))) /\
  has_shape1 b
    (tab b (fun n =>
          rsum (p - 1) (fun i =>
            tget logits n i (Z.to_nat (nth (S i) (nth n tokens []) 0%Z))
            - ln (vsum (map exp (nth i (nth n logits []) []))))
          / INR (p - 1))).
Proof.
  intros Hlog Htok Hval Hp. split; [|apply length_tab].
  pose proof Hlog as [HlenL HallL]. pose proof Htok as [HlenT HallT].
  unfold cross_entropy_lm.
  rewrite (gather_batch_ok
             (fun n => tab (p - 1) (fun i =>
                tget logits n i (Z.to_nat (nth (S i) (nth n tokens []) 0%Z))
                - ln (vsum (map exp (nth i (nth n logits []) [])))))).
  - simpl. rewrite length_map, HlenT, map_tab. f_equal. apply tab_ext. intros n Hn.
    unfold mean, rsum. now rewrite length_tab.
  - rewrite !length_map. lia.
  - rewrite length_map, HlenT. intros n Hn.
    rewrite !nth_map_nil by reflexivity.
    assert (Hx : has_shape2 p V (nth n logits [])) by (eapply nth_has_shape2; eauto).
    assert (Ht : length (nth n tokens []) = p).
    { rewrite Forall_forall in HallT. apply HallT, nth_In. lia. }
    assert (Hv : Forall (fun id => (0 <= id < Z.of_nat V)%Z) (nth n tokens [])).
    { unfold valid_ids in Hval. rewrite Forall_forall in Hval. apply Hval, nth_In. lia. }
    destruct Hx as [Hxlen Hxall].
    assert (Hl : length (tl (nth n tokens [])) = (p - 1)%nat).
    { destruct (nth n tokens []); simpl in *; lia. }
    rewrite <- Hl at 1. apply gather_seq_ok.
    + rewrite length_removelast, length_map. lia.
    + rewrite Hl. intros i Hi.
      rewrite nth_tl, nth_removelast by (rewrite length_map; lia).
      rewrite nth_map_nil by reflexivity.
      assert (Hrow : length (nth i (nth n logits []) []) = V).
      { rewrite Forall_forall in Hxall. apply Hxall, nth_In. lia. }
      assert (Hid : (0 <= nth (S i) (nth n tokens []) 0 < Z.of_nat V)%Z).
      { rewrite Forall_forall in Hv. apply Hv, nth_In. lia. }
      unfold gather_entry, log_softmax. rewrite length_map, Hrow.
      replace ((0 <=? nth (S i) (nth n tokens []) 0) &&
               (nth (S i) (nth n tokens []) 0 <? Z.of_nat V))%Z%bool with true
        by (symmetry; apply andb_true_iff; split; [apply Z.leb_le | apply Z.ltb_lt]; lia).
      rewrite vget_map by lia. reflexivity.
Qed.

Lemma cross_entropy_lm_spec_witness :
  cross_entropy_lm [[[0; 0]; [0; 0]]] [[0%Z; 1%Z]] = Ok [- ln 2].
Proof.
  rewrite (proj1 (cross_entropy_lm_spec [[[0; 0]; [0; 0]]] [[0%Z; 1%Z]] 1 2 2
                    ltac:(split; [reflexivity | repeat constructor])
                    ltac:(split; [reflexivity | repeat constructor])
                    ltac:(repeat constructor; simpl; lia)
                    ltac:(lia))).
  unfold tab, rsum, tget, mget, vget, tab. simpl.
  rewrite exp_0. replace (1 + (1 + 0)) with 2 by lra.
  f_equal. f_equal. lra.
Defined.

(** ** Shapes through the layers *)

Lemma has_shape3_map (f : vec -> vec) (b p d d' : nat) (x : tensor3) :
  (forall v, has_shape1 d v -> has_shape1 d' (f v)) ->
  has_shape3 b p d x -> has_shape3 b p d' (map (map f) x).
Proof.
  intros Hf [Hb Hall]. split; [now rewrite length_map|].
  apply Forall_forall. intros m Hm. apply in_map_iff in Hm. destruct Hm as (m0 & <- & Hm0).
  rewrite Forall_forall in Hall. destruct (Hall m0 Hm0) as [Hp Hrows].
  split; [now rewrite length_map|].
  apply Forall_forall. intros v Hv. apply in_map_iff in Hv. destruct Hv as (v0 & <- & Hv0).
  rewrite Forall_forall in Hrows. auto.
Qed.

Lemma has_shape3_map_seq (f : mat -> mat) (b p d d' : nat) (x : tensor3) :
  (forall m, has_shape2 p d m -> has_shape2 p d' (f m)) ->
  has_shape3 b p d x -> has_shape3 b p d' (map f x).
Proof.
  intros Hf [Hb Hall]. split; [now rewrite length_map|].
  apply Forall_forall. intros m Hm. apply in_map_iff in Hm. destruct Hm as (m0 & <- & Hm0).
  rewrite Forall_forall in Hall. auto.
Qed.

Lemma has_shape1_vadd (d : nat) (x y : vec) :
  has_shape1 d x -> has_shape1 d y -> has_shape1 d (vadd x y).
Proof.
  unfold has_shape1, vadd. intros Hx Hy. rewrite length_zipWith; [assumption | now rewrite Hy].
Qed.

Lemma Forall_zipWith {A B C : Type} (P : A -> Prop) (Q : B -> Prop) (S : C -> Prop)
      (f : A -> B -> C) (l : list A) (l' : list B) :
  (forall a b, P a -> Q b -> S (f a b)) ->
  Forall P l -> Forall Q l' -> Forall S (zipWith f l l').
Proof.
  intros Hf Hl. revert l'. induction Hl as [|a l Ha _ IH]; intros l' Hl'; simpl; [constructor|].
  destruct Hl' as [|b l' Hb Hl']; constructor; auto.
Qed.

Lemma has_shape2_madd (p d : nat) (x y : mat) :
  has_shape2 p d x -> has_shape2 p d y -> has_shape2 p d (madd x y).
Proof.
  intros [Hp Hx] [Hq Hy]. split.
  - unfold madd. rewrite length_zipWith; [assumption | now rewrite Hq].
  - eapply Forall_zipWith; eauto using has_shape1_vadd.
Qed.

Lemma has_shape3_tadd (b p d : nat) (x y : tensor3) :
  has_shape3 b p d x -> has_shape3 b p d y -> has_shape3 b p d (tadd x y).
Proof.
  intros [Hp Hx] [Hq Hy]. split.
  - unfold tadd. rewrite length_zipWith; [assumption | now rewrite Hq].
  - eapply Forall_zipWith; eauto using has_shape2_madd.
Qed.

Lemma LayerNorm_forward_shape (self : LayerNorm.t) (b p d : nat) (x : tensor3) :
  has_shape3 b p d x -> has_shape3 b p d (LayerNorm.forward self x).
Proof.
  apply has_shape3_map. intros v Hv. unfold LayerNorm.forward_vec, has_shape1.
  now rewrite length_tab.
Qed.

Lemma SelfAttention_forward_shape (self : SelfAttention.t) (b p d : nat) (x : tensor3) :
  has_shape3 b p d x ->
  has_shape3 b p (SelfAttention.d_model self) (SelfAttention.forward self x).
Proof.
  apply has_shape3_map_seq. intros m [Hp _]. unfold SelfAttention.forward_seq. split.
  - now rewrite length_tab.
  - apply Forall_tab. intros q _. apply length_tab.
Qed.

Lemma MLP_forward_shape (self : MLP.t) (b p d : nat) (x : tensor3) :
  has_shape3 b p d x ->
  has_shape3 b p (Linear.out_features (MLP.output_layer self)) (MLP.forward self x).
Proof.
  apply has_shape3_map. intros v _. apply length_tab.
Qed.

Lemma TransformerBlock_forward_shape
      (blk : TransformerBlock.t) (dm dmlp dh nh b p : nat) (x : tensor3) :
  TransformerBlock.wf dm dmlp dh nh blk -> has_shape3 b p dm x ->
  has_shape3 b p dm (TransformerBlock.forward blk x).
Proof.
  intros (Hln1 & Hattn & Hln2 & Hmlp) Hx.
  assert (Hdm : SelfAttention.d_model (TransformerBlock.attn blk) = dm) by apply Hattn.
  assert (Hout : Linear.out_features (MLP.output_layer (TransformerBlock.mlp blk)) = dm)
    by apply Hmlp.
  unfold TransformerBlock.forward.
  assert (Hmid : has_shape3 b p dm
            (tadd x (SelfAttention.forward (TransformerBlock.attn blk)
                       (LayerNorm.forward (TransformerBlock.ln1 blk) x)))).
  { apply has_shape3_tadd; [exact Hx|]. rewrite <- Hdm.
    eapply SelfAttention_forward_shape, LayerNorm_forward_shape, Hx. }
  apply has_shape3_tadd; [exact Hmid|]. rewrite <- Hout.
  eapply MLP_forward_shape, LayerNorm_forward_shape, Hmid.
Qed.

(** ** The composition of a block *)

Lemma tget_tadd (b p d n q j : nat) (x y : tensor3) :
  has_shape3 b p d x -> has_shape3 b p d y ->
  (n < b)%nat -> (q < p)%nat -> (j < d)%nat ->
  tget (tadd x y) n q j = tget x n q j + tget y n q j.
Proof.
  intros Hx Hy Hn Hq Hj.
  pose proof (nth_has_shape2 _ _ _ n _ Hx Hn) as Hx2.
  pose proof (nth_has_shape2 _ _ _ n _ Hy Hn) as Hy2.
  pose proof (nth_has_shape1 _ _ q _ Hx2 Hq) as Hx1.
  pose proof (nth_has_shape1 _ _ q _ Hy2 Hq) as Hy1.
  unfold has_shape1 in *.
  unfold tget, mget, vget, tadd, madd, vadd.
  rewrite (nth_zipWith _ _ _ n [] [] []) by (destruct Hx, Hy; lia).
  rewrite (nth_zipWith _ _ _ q [] [] []) by (destruct Hx2, Hy2; lia).
  rewrite (nth_zipWith _ _ _ j 0 0 0) by lia.
  reflexivity.
Qed.

(** [TransformerBlock.forward] is [TransformerBlock_dataflow] on tensors of
    reals, with the block's own sublayers. *)
Lemma TransformerBlock_forward_dataflow (blk : TransformerBlock.t) (x : tensor3) :
  TransformerBlock.forward blk x
    = TransformerBlock_dataflow tadd
        (LayerNorm.forward (TransformerBlock.ln1 blk))
        (SelfAttention.forward (TransformerBlock.attn blk))
        (LayerNorm.forward (TransformerBlock.ln2 blk))
        (MLP.forward (TransformerBlock.mlp blk)) x.
Proof. reflexivity. Qed.

(** C2, amended.  On an input [x] of shape [batch, position, d_model],
    [TransformerBlock.forward] returns [resid_mid + MLP(LN2(resid_mid))] with
    [resid_mid = x + SelfAttention(LN1(x))]: entry by entry the output is
    [(x + a) + f], the two additions made in this order, where [a] is the
    entry of [SelfAttention(LN1(x))] and [f] the entry of
    [MLP(LN2(resid_mid))]; and the output has the shape of the input. *)
Theorem TransformerBlock_forward_composition
        (blk : TransformerBlock.t) (dm dmlp dh nh b p : nat) (x : tensor3) :
  TransformerBlock.wf dm dmlp dh nh blk -> has_shape3 b p dm x ->
  let LN1 := LayerNorm.forward (TransformerBlock.ln1 blk) in
  let LN2 := LayerNorm.forward (TransformerBlock.ln2 blk) in
  let Attention := SelfAttention.forward (TransformerBlock.attn blk) in
  let FeedForward := MLP.forward (TransformerBlock.mlp blk) in
  let resid_mid := tadd x (Attention (LN1 x)) in
  TransformerBlock.forward blk x = tadd resid_mid (FeedForward (LN2 resid_mid)) /\
  (forall n q j, (n < b)%nat -> (q < p)%nat -> (j < dm)%nat ->
     tget (TransformerBlock.forward blk x) n q j
       = (tget x n q j + tget (Attention (LN1 x)) n q j)
         + tget (FeedForward (LN2 resid_mid)) n q j) /\
  has_shape3 b p dm (TransformerBlock.forward blk x).
Proof.
  intros Hwf Hx LN1 LN2 Attention FeedForward resid_mid.
  split; [reflexivity|]. split; [|eapply TransformerBlock_forward_shape; eauto].
  destruct Hwf as (Hln1 & Hattn & Hln2 & Hmlp).
  assert (Hdm : SelfAttention.d_model (TransformerBlock.attn blk) = dm) by apply Hattn.
  assert (Hout : Linear.out_features (MLP.output_layer (TransformerBlock.mlp blk)) = dm)
    by apply Hmlp.
  assert (Ha : has_shape3 b p dm (Attention (LN1 x))).
  { subst Attention LN1. rewrite <- Hdm.
    eapply SelfAttention_forward_shape, LayerNorm_forward_shape, Hx. }
  assert (Hmid : has_shape3 b p dm resid_mid) by (apply has_shape3_tadd; assumption).
  assert (Hf : has_shape3 b p dm (FeedForward (LN2 resid_mid))).
  { subst FeedForward LN2. rewrite <- Hout.
    eapply MLP_forward_shape, LayerNorm_forward_shape, Hmid. }
  intros n q j Hn Hq Hj.
  change (TransformerBlock.forward blk x) with (tadd resid_mid (FeedForward (LN2 resid_mid))).
  rewrite (tget_tadd b p dm) by assumption.
  subst resid_mid. rewrite (tget_tadd b p dm) by assumption. reflexivity.
Qed.

(** ** Transformer.forward *)

Lemma EmbeddingLayer_forward_valid
      (self : EmbeddingLayer.t) (dv dm b p : nat) (toks : token_tensor) :
  EmbeddingLayer.wf dv dm self -> tokens_shape b p toks -> valid_ids dv toks ->
  EmbeddingLayer.forward self toks
    = Ok (map (map (fun id => nth (Z.to_nat id) (EmbeddingLayer.W_E self) [])) toks) /\
  has_shape3 b p dm (map (map (fun id => nth (Z.to_nat id) (EmbeddingLayer.W_E self) [])) toks).
Proof.
  intros [Hlen Hrows] [Hb Hp] Hv. split.
  - apply mapM_ok. eapply Forall_impl; [|exact Hv]. intros r Hr.
    apply mapM_ok. eapply Forall_impl; [|exact Hr]. intros id Hid. simpl in Hid.
    rewrite index_row_in_range by (rewrite Hlen; lia).
    unfold wrapped_row. destruct (id <? 0)%Z eqn:E; [apply Z.ltb_lt in E; lia | reflexivity].
  - split; [now rewrite length_map|].
    apply Forall_forall. intros m Hm. apply in_map_iff in Hm.
    destruct Hm as (r & <- & Hr). unfold valid_ids in Hv. rewrite Forall_forall in Hp, Hv.
    split; [rewrite length_map; now apply Hp|].
    apply Forall_forall. intros v Hin. apply in_map_iff in Hin.
    destruct Hin as (id & <- & Hid). specialize (Hv r Hr). rewrite Forall_forall in Hv.
    specialize (Hv id Hid). simpl in Hv.
    rewrite Forall_forall in Hrows. apply Hrows, nth_In. lia.
Qed.

Lemma shape1_has_shape3 (b p d : nat) (x : tensor3) :
  has_shape3 b p d x -> (1 <= b)%nat -> shape1 x = p.
Proof.
  intros [Hb Hall] H1. destruct x as [|m x]; simpl in *; [lia|].
  inversion Hall as [|? ? [Hp _] _]. exact Hp.
Qed.

Lemma add_broadcast_pos_same (b p d : nat) (x y : tensor3) :
  has_shape3 b p d x -> has_shape3 b p d y -> (1 <= b)%nat ->
  add_broadcast_pos x y = Ok (tadd x y).
Proof.
  intros Hx Hy Hb. unfold add_broadcast_pos.
  rewrite (shape1_has_shape3 b p d x), (shape1_has_shape3 b p d y) by assumption.
  now rewrite Nat.eqb_refl.
Qed.

Lemma run_blocks_shape (c : Config) (blocks : list TransformerBlock.t) (b p : nat) (x : tensor3) :
  Forall (TransformerBlock.wf (d_model c) (d_mlp c) (d_head c) (n_heads c)) blocks ->
  has_shape3 b p (d_model c) x ->
  has_shape3 b p (d_model c) (Transformer.run_blocks blocks x).
Proof.
  intros Hwf. revert x. induction Hwf as [|blk blocks Hblk _ IH]; intros x Hx; simpl; [exact Hx|].
  apply IH. eapply TransformerBlock_forward_shape; eauto.
Qed.

(** The blocks are applied in list order, the first block innermost. *)
Lemma run_blocks_snoc (blocks : list TransformerBlock.t) (blk : TransformerBlock.t) (x : tensor3) :
  Transformer.run_blocks (blocks ++ [blk]) x
    = TransformerBlock.forward blk (Transformer.run_blocks blocks x).
Proof. unfold Transformer.run_blocks. now rewrite fold_left_app. Qed.

Lemma UnembeddingLayer_forward_shape (self : UnembeddingLayer.t) (b p d : nat) (x : tensor3) :
  has_shape3 b p d x ->
  has_shape3 b p (UnembeddingLayer.d_vocab self) (UnembeddingLayer.forward self x).
Proof. apply has_shape3_map. intros v _. apply length_tab. Qed.

(** C1.  On a token tensor of shape [batch, position] with [batch >= 1],
    [1 <= position <= max_ctx] and every id in [[0, d_vocab)],
    [Transformer.forward] raises nothing and returns
    [Unembed(FinalLayerNorm(Block_n(... Block_1(Embed(tokens) + PosEncode(tokens)) ...)))],
    of shape [batch, position, d_vocab]. *)
Theorem Transformer_forward_spec
        (self : Transformer.t) (c : Config) (b p : nat) (tokens : token_tensor) :
  Transformer.wf c self -> tokens_shape b p tokens ->
  (1 <= b)%nat -> (1 <= p <= max_ctx c)%nat -> valid_ids (d_vocab c) tokens ->
  exists embedded pos_embed : tensor3,
    EmbeddingLayer.forward (Transformer.embed self) tokens = Ok embedded /\
    PositionEmbedding.forward (Transformer.pos_embed self) tokens = Ok pos_embed /\
    Transformer.forward self tokens
      = Ok (UnembeddingLayer.forward (Transformer.unembed self)
              (LayerNorm.forward (Transformer.ln self)
                 (fold_left (fun resid blk => TransformerBlock.forward blk resid)
                            (Transformer.transformer self)
                            (tadd embedded pos_embed)))) /\
    has_shape3 b p (d_vocab c)
      (UnembeddingLayer.forward (Transformer.unembed self)
         (LayerNorm.forward (Transformer.ln self)
            (fold_left (fun resid blk => TransformerBlock.forward blk resid)
                       (Transformer.transformer self)
                       (tadd embedded pos_embed)))).
Proof.
  intros (He & Hp & Hblocks & Hln & Hu) Htok Hb Hpos Hval.
  destruct (EmbeddingLayer_forward_valid _ _ _ b p tokens He Htok Hval) as [Ee Se].
  destruct (PositionEmbedding_forward_shape _ _ _ b p tokens Hp Htok Hb (proj2 Hpos)) as [Ep Sp].
  eexists _, _. split; [exact Ee|]. split; [exact Ep|].
  pose proof (has_shape3_tadd _ _ _ _ _ Se Sp) as Sadd.
  split.
  - unfold Transformer.forward. rewrite Ee, Ep. simpl.
    rewrite (add_broadcast_pos_same b p (d_model c)) by assumption. reflexivity.
  - assert (Hdv : UnembeddingLayer.d_vocab (Transformer.unembed self) = d_vocab c) by apply Hu.
    rewrite <- Hdv. eapply UnembeddingLayer_forward_shape, LayerNorm_forward_shape.
    apply (run_blocks_shape c); eassumption.
Qed.

(** ** Self-attention, entry by entry *)

Lemma nth_map_lt {A B : Type} (f : A -> B) (l : list A) (n : nat) (d : B) (d' : A) :
  (n < length l)%nat -> nth n (map f l) d = f (nth n l d').
Proof.
  intros H. rewrite (nth_indep _ d (f d')) by now rewrite length_map.
  apply map_nth.
Qed.

Lemma tget_map3 (g : R -> R) (a : tensor3) (nh p d h q k : nat) :
  has_shape3 nh p d a -> (h < nh)%nat -> (q < p)%nat -> (k < d)%nat ->
  tget (map (map (map g)) a) h q k = g (tget a h q k).
Proof.
  intros Ha Hh Hq Hk. pose proof (nth_has_shape2 _ _ _ h _ Ha Hh) as H2.
  pose proof (nth_has_shape1 _ _ q _ H2 Hq) as H1.
  unfold tget, mget, vget.
  rewrite (nth_map_lt _ a h [] []) by (destruct Ha; lia).
  rewrite (nth_map_lt _ _ q [] []) by (destruct H2; lia).
  rewrite (nth_map_lt _ _ k 0 0) by (unfold has_shape1 in H1; lia).
  reflexivity.
Qed.

Lemma shape1_has_shape2 (p d : nat) (m : mat) :
  has_shape2 p d m -> (1 <= p)%nat -> shape1 m = d.
Proof.
  intros [Hp Hall] H1. destruct m as [|v m]; simpl in *; [lia|].
  now inversion Hall.
Qed.

Lemma project_entry (self : SelfAttention.t) (W : tensor3) (b : mat) (x : mat) (q h e : nat) :
  (q < length x)%nat -> (h < SelfAttention.n_heads self)%nat ->
  (e < SelfAttention.d_head self)%nat ->
  tget (SelfAttention.project self W b x) q h e
    = rsum (SelfAttention.d_model self) (fun m => vget (nth q x []) m * tget W h m e)
      + mget b h e.
Proof.
  intros Hq Hh He. unfold SelfAttention.project, tget, mget, vget.
  rewrite (nth_map_lt _ x q [] []) by assumption.
  rewrite nth_tab by assumption. rewrite nth_tab by assumption. reflexivity.
Qed.

Lemma raw_scores_shape (self : SelfAttention.t) (x : mat) :
  has_shape3 (SelfAttention.n_heads self) (length x) (length x)
             (SelfAttention.raw_scores self x).
Proof.
  split; [apply length_tab|]. apply Forall_tab. intros h _.
  split; [apply length_tab|]. apply Forall_tab. intros q _. apply length_tab.
Qed.

Lemma raw_scores_entry (self : SelfAttention.t) (x : mat) (h q k : nat) :
  (h < SelfAttention.n_heads self)%nat -> (q < length x)%nat -> (k < length x)%nat ->
  tget (SelfAttention.raw_scores self x) h q k
    = rsum (SelfAttention.d_head self) (fun e =>
        tget (SelfAttention.queries self x) q h e * tget (SelfAttention.keys self x) k h e).
Proof.
  intros Hh Hq Hk. unfold SelfAttention.raw_scores, tget, mget, vget.
  now rewrite !nth_tab by assumption.
Qed.

Lemma scale_shape (self : SelfAttention.t) (a : tensor3) (nh p d : nat) :
  has_shape3 nh p d a -> has_shape3 nh p d (SelfAttention.scale self a).
Proof.
  intros Ha. unfold SelfAttention.scale.
  apply (has_shape3_map _ nh p d d a); [|exact Ha].
  intros v Hv. unfold has_shape1 in *. now rewrite length_map.
Qed.

Lemma masked_fill_shape (a : tensor3) (nh p : nat) (v : R) :
  has_shape3 nh p p a ->
  has_shape3 nh p p (SelfAttention.masked_fill a (SelfAttention.triu1 p p) v).
Proof.
  intros [Hn Hall]. split; [unfold SelfAttention.masked_fill; now rewrite length_map|].
  unfold SelfAttention.masked_fill. apply Forall_forall. intros m Hm.
  apply in_map_iff in Hm. destruct Hm as (m0 & <- & Hm0).
  rewrite Forall_forall in Hall. destruct (Hall m0 Hm0) as [Hp Hrows]. split.
  - rewrite length_zipWith; [assumption|]. unfold SelfAttention.triu1. now rewrite length_tab.
  - eapply Forall_zipWith with (Q := fun r : list bool => length r = p); [|exact Hrows|].
    + intros r mr Hr Hmr. unfold has_shape1 in *. rewrite length_zipWith; congruence.
    + apply Forall_tab. intros q _. apply length_tab.
Qed.

Lemma masked_fill_entry (a : tensor3) (nh p : nat) (v : R) (h q k : nat) :
  has_shape3 nh p p a -> (h < nh)%nat -> (q < p)%nat -> (k < p)%nat ->
  tget (SelfAttention.masked_fill a (SelfAttention.triu1 p p) v) h q k
    = if (q <? k)%nat then v else tget a h q k.
Proof.
  intros Ha Hh Hq Hk. pose proof (nth_has_shape2 _ _ _ h _ Ha Hh) as H2.
  pose proof (nth_has_shape1 _ _ q _ H2 Hq) as H1.
  unfold SelfAttention.masked_fill, SelfAttention.triu1, tget, mget, vget.
  rewrite (nth_map_lt _ a h [] []) by (destruct Ha; lia).
  rewrite (nth_zipWith _ _ _ q [] [] []);
    [| destruct H2; lia | now rewrite length_tab].
  rewrite nth_tab by assumption.
  rewrite (nth_zipWith _ _ _ k 0 false 0);
    [| unfold has_shape1 in H1; lia | now rewrite length_tab].
  now rewrite nth_tab by assumption.
Qed.

Lemma masked_scores_unfold (self : SelfAttention.t) (x : mat) :
  (1 <= SelfAttention.n_heads self)%nat -> (1 <= length x)%nat ->
  SelfAttention.masked_scores self x
    = SelfAttention.masked_fill
        (SelfAttention.scale self (SelfAttention.raw_scores self x))
        (SelfAttention.triu1 (length x) (length x)) (SelfAttention.mask_val self).
Proof.
  intros Hh Hp. unfold SelfAttention.masked_scores.
  pose proof (scale_shape self _ _ _ _ (raw_scores_shape self x)) as Hs.
  pose proof (nth_has_shape2 _ _ _ 0 _ Hs Hh) as H0.
  unfold shape0. rewrite (shape1_has_shape2 _ _ _ H0 Hp).
  destruct H0 as [-> _]. reflexivity.
Qed.

Lemma masked_scores_shape (self : SelfAttention.t) (x : mat) :
  (1 <= SelfAttention.n_heads self)%nat -> (1 <= length x)%nat ->
  has_shape3 (SelfAttention.n_heads self) (length x) (length x)
             (SelfAttention.masked_scores self x).
Proof.
  intros Hh Hp. rewrite masked_scores_unfold by assumption.
  apply masked_fill_shape, scale_shape, raw_scores_shape.
Qed.

Lemma masked_scores_entry (self : SelfAttention.t) (x : mat) (h q k : nat) :
  (h < SelfAttention.n_heads self)%nat -> (q < length x)%nat -> (k < length x)%nat ->
  tget (SelfAttention.masked_scores self x) h q k
    = if (q <? k)%nat then SelfAttention.mask_val self
      else tget (SelfAttention.raw_scores self x) h q k
           / sqrt (INR (SelfAttention.d_head self)).
Proof.
  intros Hh Hq Hk. rewrite masked_scores_unfold by lia.
  rewrite (masked_fill_entry _ (SelfAttention.n_heads self) (length x))
    by (auto using scale_shape, raw_scores_shape).
  destruct (q <? k)%nat; [reflexivity|].
  unfold SelfAttention.scale.
  now rewrite (tget_map3 _ _ _ _ _ h q k (raw_scores_shape self x)).
Qed.

Lemma vsum_map_rsum (f : R -> R) (row : vec) :
  vsum (map f row) = rsum (length row) (fun j => f (vget row j)).
Proof.
  induction row as [|a row IH]; [reflexivity|].
  unfold rsum. simpl length. rewrite tab_S. simpl. now rewrite IH.
Qed.

Lemma softmax_entry (row : vec) (k : nat) :
  (k < length row)%nat ->
  vget (SelfAttention.softmax row) k
    = exp (vget row k) / rsum (length row) (fun j => exp (vget row j)).
Proof.
  intros Hk. unfold SelfAttention.softmax.
  rewrite (vget_map (fun s => exp s / vsum (map exp row))) by assumption.
  now rewrite vsum_map_rsum.
Qed.

Lemma attn_pattern_entry (self : SelfAttention.t) (x : mat) (h q k : nat) :
  (h < SelfAttention.n_heads self)%nat -> (q < length x)%nat -> (k < length x)%nat ->
  tget (SelfAttention.attn_pattern self x) h q k
    = exp (tget (SelfAttention.masked_scores self x) h q k)
      / rsum (length x) (fun j => exp (tget (SelfAttention.masked_scores self x) h q j)).
Proof.
  intros Hh Hq Hk.
  pose proof (masked_scores_shape self x ltac:(lia) ltac:(lia)) as Hs.
  pose proof (nth_has_shape2 _ _ _ h _ Hs Hh) as H2.
  pose proof (nth_has_shape1 _ _ q _ H2 Hq) as H1. unfold has_shape1 in H1.
  unfold SelfAttention.attn_pattern, tget, mget.
  rewrite (nth_map_lt _ _ h [] []) by (destruct Hs; lia).
  rewrite (nth_map_lt _ _ q [] []) by (destruct H2; lia).
  rewrite softmax_entry by lia. now rewrite H1.
Qed.

Lemma context_vec_entry (self : SelfAttention.t) (x : mat) (h q e : nat) :
  (h < SelfAttention.n_heads self)%nat -> (q < length x)%nat ->
  (e < SelfAttention.d_head self)%nat ->
  tget (SelfAttention.context_vec self x) h q e
    = rsum (length x) (fun k =>
        tget (SelfAttention.attn_pattern self x) h q k
        * tget (SelfAttention.values self x) k h e).
Proof.
  intros Hh Hq He. unfold SelfAttention.context_vec, tget, mget, vget.
  now rewrite !nth_tab by assumption.
Qed.

Lemma forward_seq_entry (self : SelfAttention.t) (x : mat) (q m : nat) :
  (q < length x)%nat -> (m < SelfAttention.d_model self)%nat ->
  mget (SelfAttention.forward_seq self x) q m
    = rsum (SelfAttention.n_heads self) (fun h =>
        rsum (SelfAttention.d_head self) (fun e =>
          tget (SelfAttention.context_vec self x) h q e
          * tget (SelfAttention.W_O self) h e m))
      + vget (SelfAttention.b_O self) m.
Proof.
  intros Hq Hm. unfold SelfAttention.forward_seq, mget, vget.
  now rewrite !nth_tab by assumption.
Qed.

Lemma rsum_pos (n : nat) (f : nat -> R) :
  (1 <= n)%nat -> (forall j, (j < n)%nat -> 0 < f j) -> 0 < rsum n f.
Proof.
  revert f. induction n as [|n IH]; intros f Hn Hf; [lia|].
  unfold rsum. rewrite tab_S. simpl.
  destruct n as [|n].
  - simpl. specialize (Hf 0%nat ltac:(lia)). lra.
  - specialize (IH (fun i => f (S i)) ltac:(lia) ltac:(intros j Hj; apply Hf; lia)).
    specialize (Hf 0%nat ltac:(lia)). unfold rsum in IH. lra.
Qed.


Lemma returns_SelfAttention_init_mask (nh dm dh : nat) (mask std : R) :
  returns (SelfAttention.init nh dm dh mask std)
          (fun a => SelfAttention.mask_val a = mask).
Proof.
  unfold SelfAttention.init. do 4 step_init returns_normal_tensor3.
  step_emit. apply returns_ret. reflexivity.
Qed.

Lemma returns_TransformerBlock_init_mask (dm dmlp dh nh : nat) :
  returns (TransformerBlock.init dm dmlp dh nh)
          (fun blk => SelfAttention.mask_val (TransformerBlock.attn blk) = -100000).
Proof.
  unfold TransformerBlock.init.
  step_init returns_LayerNorm_init. step_init returns_SelfAttention_init_mask.
  step_init returns_LayerNorm_init. step_init returns_MLP_init.
  step_emit. apply returns_ret. cbv beta in *. simpl.
  match goal with H : SelfAttention.mask_val _ = _ |- _ => rewrite H end.
  unfold SelfAttention.default_mask_val. lra.
Qed.

(** C3.  [SelfAttention.forward], on sequence [n] of the batch, for head [h],
    query position [q] and key position [k]: queries, keys and values are the
    projections of the input plus their biases; the raw score is the dot
    product of query [q] and key [k]; the score that enters the softmax is
    the mask value when [k > q] and the raw score divided by [sqrt d_head]
    otherwise (so the scaling comes first and the mask overwrites its
    result); the attention weight is the softmax of these scores over the key
    positions; the context vector is the sum of the values weighted by these
    weights; and the output of [forward] is the output projection of the
    context vectors of all heads plus [b_O].  The mask value of a block built
    by the constructor is the default [-1e5]. *)
Theorem SelfAttention_scale_mask_softmax
        (self : SelfAttention.t) (resid_pre : tensor3) (n h q k e m : nat) :
  (n < length resid_pre)%nat ->
  (h < SelfAttention.n_heads self)%nat ->
  (q < length (nth n resid_pre []))%nat -> (k < length (nth n resid_pre []))%nat ->
  (e < SelfAttention.d_head self)%nat -> (m < SelfAttention.d_model self)%nat ->
  let x := nth n resid_pre [] in
  let query q' h' e' :=
    rsum (SelfAttention.d_model self) (fun i => mget x q' i * tget (SelfAttention.W_Q self) h' i e')
    + mget (SelfAttention.b_Q self) h' e' in
  let key k' h' e' :=
    rsum (SelfAttention.d_model self) (fun i => mget x k' i * tget (SelfAttention.W_K self) h' i e')
    + mget (SelfAttention.b_K self) h' e' in
  let value k' h' e' :=
    rsum (SelfAttention.d_model self) (fun i => mget x k' i * tget (SelfAttention.W_V self) h' i e')
    + mget (SelfAttention.b_V self) h' e' in
  let raw h' q' k' :=
    rsum (SelfAttention.d_head self) (fun e' => query q' h' e' * key k' h' e') in
  let score h' q' k' :=
    if (q' <? k')%nat then SelfAttention.mask_val self
    else raw h' q' k' / sqrt (INR (SelfAttention.d_head self)) in
  let weight h' q' k' :=
    exp (score h' q' k') / rsum (length x) (fun j => exp (score h' q' j)) in
  let context h' q' e' :=
    rsum (length x) (fun j => weight h' q' j * value j h' e') in
  tget (SelfAttention.raw_scores self x) h q k = raw h q k /\
  tget (SelfAttention.masked_scores self x) h q k = score h q k /\
  tget (SelfAttention.attn_pattern self x) h q k = weight h q k /\
  tget (SelfAttention.context_vec self x) h q e = context h q e /\
  tget (SelfAttention.forward self resid_pre) n q m
    = rsum (SelfAttention.n_heads self) (fun h' =>
        rsum (SelfAttention.d_head self) (fun e' =>
          context h' q e' * tget (SelfAttention.W_O self) h' e' m))
      + vget (SelfAttention.b_O self) m /\
  (forall dm dmlp dh nh : nat,
      returns (TransformerBlock.init dm dmlp dh nh)
              (fun blk => SelfAttention.mask_val (TransformerBlock.attn blk) = -100000)).
Proof.
  intros Hn Hh Hq Hk He Hm x query key value raw score weight context.
  assert (Hproj : forall W b q' h' e',
            (q' < length x)%nat -> (h' < SelfAttention.n_heads self)%nat ->
            (e' < SelfAttention.d_head self)%nat ->
            tget (SelfAttention.project self W b x) q' h' e'
            = rsum (SelfAttention.d_model self) (fun i => mget x q' i * tget W h' i e')
              + mget b h' e').
  { intros W b q' h' e' H1 H2 H3. now rewrite project_entry. }
  assert (Hraw : forall h' q' k',
            (h' < SelfAttention.n_heads self)%nat -> (q' < length x)%nat ->
            (k' < length x)%nat ->
            tget (SelfAttention.raw_scores self x) h' q' k' = raw h' q' k').
  { intros h' q' k' H1 H2 H3. rewrite raw_scores_entry by assumption.
    apply rsum_ext. intros e' He'. unfold SelfAttention.queries, SelfAttention.keys.
    now rewrite !Hproj. }
  assert (Hscore : forall h' q' k',
            (h' < SelfAttention.n_heads self)%nat -> (q' < length x)%nat ->
            (k' < length x)%nat ->
            tget (SelfAttention.masked_scores self x) h' q' k' = score h' q' k').
  { intros h' q' k' H1 H2 H3. rewrite masked_scores_entry by assumption.
    unfold score. now rewrite Hraw. }
  assert (Hweight : forall h' q' k',
            (h' < SelfAttention.n_heads self)%nat -> (q' < length x)%nat ->
            (k' < length x)%nat ->
            tget (SelfAttention.attn_pattern self x) h' q' k' = weight h' q' k').
  { intros h' q' k' H1 H2 H3. rewrite attn_pattern_entry by assumption.
    unfold weight. rewrite Hscore by assumption. f_equal.
    apply rsum_ext. intros j Hj. now rewrite Hscore. }
  assert (Hcontext : forall h' q' e',
            (h' < SelfAttention.n_heads self)%nat -> (q' < length x)%nat ->
            (e' < SelfAttention.d_head self)%nat ->
            tget (SelfAttention.context_vec self x) h' q' e' = context h' q' e').
  { intros h' q' e' H1 H2 H3. rewrite context_vec_entry by assumption.
    apply rsum_ext. intros j Hj. rewrite Hweight by assumption.
    unfold SelfAttention.values. now rewrite Hproj. }
  split; [now apply Hraw|]. split; [now apply Hscore|].
  split; [now apply Hweight|]. split; [now apply Hcontext|].
  split; [|apply returns_TransformerBlock_init_mask].
  unfold tget at 1. unfold SelfAttention.forward.
  rewrite (nth_map_lt _ resid_pre n [] []) by assumption. fold x.
  rewrite forward_seq_entry by assumption.
  f_equal. apply rsum_ext. intros h' Hh'. apply rsum_ext. intros e' He'.
  now rewrite Hcontext.
Qed.

(** ** LayerNorm *)

Lemma vsum_map_minus (c : R) (x : vec) :
  vsum (map (fun a => a - c) x) = vsum x - INR (length x) * c.
Proof.
  induction x as [|a x IH]; [simpl; lra|].
  change (vsum (map (fun a0 => a0 - c) (a :: x)))
    with (a - c + vsum (map (fun a0 => a0 - c) x)).
  change (vsum (a :: x)) with (a + vsum x).
  rewrite IH. simpl length. rewrite S_INR. lra.
Qed.

Lemma mean_centered (x : vec) : mean (map (fun a => a - mean x) x) = 0.
Proof.
  unfold mean at 1. rewrite vsum_map_minus, length_map.
  destruct x as [|a x]; [simpl; lra|].
  unfold mean. set (n := INR (length (a :: x))).
  assert (Hn : n <> 0) by (subst n; apply not_0_INR; discriminate).
  field. exact Hn.
Qed.

(** What the code computes on one position: the deviations from the mean are
    divided by the square root of the variance with denominator [n - 1]. *)
Lemma LayerNorm_forward_vec_formula (self : LayerNorm.t) (x : vec) (i : nat) :
  (i < length x)%nat ->
  vget (LayerNorm.forward_vec self x) i
    = (vget x i - mean x)
      / sqrt (vsum (map (fun a => (a - mean x) * (a - mean x)) x) / (INR (length x) - 1)
              + LayerNorm.layer_norm_eps self)
      * vget (LayerNorm.gains self) i + vget (LayerNorm.bias self) i.
Proof.
  intros Hi. unfold LayerNorm.forward_vec.
  unfold vget at 1. rewrite nth_tab by assumption.
  rewrite (vget_map (fun a => a / _)) by now rewrite length_map.
  rewrite (vget_map (fun a => a - mean x)) by assumption.
  unfold var. rewrite mean_centered, map_map, length_map.
  replace (map (fun a => (a - mean x - 0) * (a - mean x - 0)) x)
    with (map (fun a => (a - mean x) * (a - mean x)) x)
    by (apply map_ext; intros a; ring).
  reflexivity.
Qed.

(** C5, at the input [[0; 2]] with gain 1, bias 0 and epsilon [1e-5]: the code
    normalises with the variance 2 (denominator [d_model - 1 = 1]), where the
    biased variance (denominator [d_model = 2]) is 1, and the two results
    differ. *)
Theorem LayerNorm_forward_variance_denominator :
  LayerNorm.forward_vec
    {| LayerNorm.gains := [1; 1]; LayerNorm.bias := [0; 0];
       LayerNorm.layer_norm_eps := 1e-5 |} [0; 2]
    = [-1 / sqrt (2 + 1e-5) * 1 + 0; 1 / sqrt (2 + 1e-5) * 1 + 0] /\
  LayerNorm_forward_vec_biased
    {| LayerNorm.gains := [1; 1]; LayerNorm.bias := [0; 0];
       LayerNorm.layer_norm_eps := 1e-5 |} [0; 2]
    = [1 * (-1 / sqrt (1 + 1e-5)) + 0; 1 * (1 / sqrt (1 + 1e-5)) + 0] /\
  LayerNorm.forward_vec
    {| LayerNorm.gains := [1; 1]; LayerNorm.bias := [0; 0];
       LayerNorm.layer_norm_eps := 1e-5 |} [0; 2]
    <> LayerNorm_forward_vec_biased
         {| LayerNorm.gains := [1; 1]; LayerNorm.bias := [0; 0];
            LayerNorm.layer_norm_eps := 1e-5 |} [0; 2].
Proof.
  assert (Hmean : mean [0; 2] = 1) by (unfold mean; simpl; field).
  assert (Hvar : var (map (fun a => a - mean [0; 2]) [0; 2]) = 2).
  { rewrite Hmean. unfold var, mean. simpl. field. }
  assert (Hbvar : biased_var [0; 2] = 1).
  { unfold biased_var. rewrite Hmean. simpl. field. }
  assert (E1 : LayerNorm.forward_vec
                 {| LayerNorm.gains := [1; 1]; LayerNorm.bias := [0; 0];
                    LayerNorm.layer_norm_eps := 1e-5 |} [0; 2]
               = [-1 / sqrt (2 + 1e-5) * 1 + 0; 1 / sqrt (2 + 1e-5) * 1 + 0]).
  { unfold LayerNorm.forward_vec. rewrite Hvar, Hmean. simpl.
    unfold vget, tab. simpl. f_equal; [lra | f_equal; lra]. }
  assert (E2 : LayerNorm_forward_vec_biased
                 {| LayerNorm.gains := [1; 1]; LayerNorm.bias := [0; 0];
                    LayerNorm.layer_norm_eps := 1e-5 |} [0; 2]
               = [1 * (-1 / sqrt (1 + 1e-5)) + 0; 1 * (1 / sqrt (1 + 1e-5)) + 0]).
  { unfold LayerNorm_forward_vec_biased. rewrite Hbvar, Hmean. simpl.
    unfold vget, tab. simpl. f_equal; [lra | f_equal; lra]. }
  split; [exact E1|]. split; [exact E2|].
  rewrite E1, E2. intros H. injection H as _ H.
  assert (Hs : / sqrt (2 + 1e-5) = / sqrt (1 + 1e-5)) by lra.
  apply Rinv_eq_reg in Hs. apply sqrt_inj in Hs; lra.
Qed.

(** ** gelu_new *)

Lemma tanh_exp (x : R) : tanh x = (exp x * exp x - 1) / (exp x * exp x + 1).
Proof.
  unfold tanh, sinh, cosh. rewrite exp_Ropp.
  pose proof (exp_pos x) as Hx.
  field. split; nra.
Qed.

Lemma div_eq_cross (x y z w : R) :
  y <> 0 -> w <> 0 -> x / y = z / w -> x * w = z * y.
Proof.
  intros Hy Hw H.
  assert (Hx : x = z / w * y) by (rewrite <- H; field; exact Hy).
  rewrite Hx. field. exact Hw.
Qed.

Lemma tanh_inj (x y : R) : tanh x = tanh y -> x = y.
Proof.
  rewrite !tanh_exp. intros H.
  pose proof (exp_pos x) as Hx. pose proof (exp_pos y) as Hy.
  set (a := exp x) in *. set (b := exp y) in *.
  apply div_eq_cross in H; [|nra|nra].
  assert (Hsq : (a - b) * (a + b) = 0) by nra.
  apply Rmult_integral in Hsq.
  assert (Hab : a = b) by (destruct Hsq; lra).
  subst a b. now apply exp_inv.
Qed.

(** C6, at the input [1.0]: the code's coefficient is [0.04715], not the
    published [0.044715], and the value of [gelu_new] differs from that of the
    reference formula. *)
Theorem gelu_new_coefficient :
  gelu_new 1 = 0.5 * 1 * (1.0 + tanh (sqrt (2.0 / PI) * (1 + 0.04715 * 1 ^ 3))) /\
  0.04715 <> 0.044715 /\
  gelu_new 1 <> gelu_new_reference 1.
Proof.
  split; [reflexivity|]. split; [lra|].
  unfold gelu_new, gelu_new_reference. intros H.
  assert (Ht : tanh (sqrt (2.0 / PI) * (1 + 0.04715 * 1 ^ 3))
               = tanh (sqrt (2 / PI) * (1 + 0.044715 * 1 ^ 3))) by lra.
  apply tanh_inj in Ht.
  assert (Hs : 0 < sqrt (2 / PI)).
  { apply sqrt_lt_R0. apply Rdiv_lt_0_compat; [lra | apply PI_RGT_0]. }
  replace (2.0 / PI) with (2 / PI) in Ht by (f_equal; lra).
  nra.
Qed.

Lemma demo_block_wf : TransformerBlock.wf 2 1 1 1 demo_block.
Proof.
  unfold TransformerBlock.wf, LayerNorm.wf, SelfAttention.wf, MLP.wf, Linear.wf,
    has_shape3, has_shape2, has_shape1. simpl.
  repeat match goal with
         | |- _ /\ _ => split
         | |- Forall _ _ => constructor
         | |- _ = _ => reflexivity
         end.
Qed.

Lemma demo_model_wf : Transformer.wf demo_config demo_model.
Proof.
  unfold Transformer.wf. simpl.
  repeat match goal with
         | |- _ /\ _ => split
         end.
  - split; [reflexivity | repeat constructor].
  - split; [reflexivity | repeat constructor].
  - constructor; [exact demo_block_wf | constructor].
  - split; reflexivity.
  - unfold UnembeddingLayer.wf, has_shape2, has_shape1. simpl.
    repeat match goal with
           | |- _ /\ _ => split
           | |- Forall _ _ => constructor
           | |- _ = _ => reflexivity
           end.
Qed.



Lemma nth2_map_map (f : vec -> vec) (T : tensor3) (b p d n q : nat) :
  has_shape3 b p d T -> (n < b)%nat -> (q < p)%nat ->
  nth q (nth n (map (map f) T) []) [] = f (nth q (nth n T []) []).
Proof.
  intros HT Hn Hq. pose proof (nth_has_shape2 _ _ _ n _ HT Hn) as [H2 _].
  rewrite (nth_map_lt _ T n [] []) by (destruct HT; lia).
  rewrite (nth_map_lt _ _ q [] []) by lia. reflexivity.
Qed.


Lemma demo_mlp_zero (v : vec) : MLP.forward_vec demo_mlp v = [0; 0].
Proof.
  unfold MLP.forward_vec, Linear.forward_vec.
  cbv [rsum tab seq map vsum fold_right demo_mlp MLP.input_layer MLP.output_layer
       Linear.in_features Linear.out_features Linear.weight Linear.lbias mget vget nth].
  f_equal; [|f_equal]; ring.
Qed.



(** ** Causality *)

(** The scores of query position 0 in [demo_attn], as they enter the softmax:
    the unmasked one is [-2e5], the masked one is the mask value [-1e5]. *)
Lemma demo_masked_scores_row0 (a0 b0 a1 b1 : R) :
  tget (SelfAttention.masked_scores demo_attn [[a0; b0]; [a1; b1]]) 0 0 0 = -200000 /\
  tget (SelfAttention.masked_scores demo_attn [[a0; b0]; [a1; b1]]) 0 0 1 = -100000.
Proof.
  rewrite !masked_scores_entry by (simpl; lia).
  rewrite raw_scores_entry by (simpl; lia).
  cbv [Nat.ltb Nat.leb rsum tab seq map vsum fold_right SelfAttention.d_head demo_attn
       SelfAttention.mask_val].
  unfold SelfAttention.queries, SelfAttention.keys.
  rewrite !project_entry by (simpl; lia).
  cbv [rsum tab seq map vsum fold_right SelfAttention.d_model demo_attn
       SelfAttention.W_Q SelfAttention.b_Q SelfAttention.W_K SelfAttention.b_K
       tget mget vget nth INR].
  rewrite sqrt_1. split; [field | lra].
Qed.






(** ** The model with the softmax left open *)

Lemma SelfAttention_forward_with_softmax (self : SelfAttention.t) (x : tensor3) :
  SelfAttention_forward_with SelfAttention.softmax self x = SelfAttention.forward self x.
Proof. reflexivity. Qed.

Lemma TransformerBlock_forward_with_softmax (blk : TransformerBlock.t) (x : tensor3) :
  TransformerBlock_forward_with SelfAttention.softmax blk x = TransformerBlock.forward blk x.
Proof. reflexivity. Qed.

Lemma Transformer_forward_with_softmax (self : Transformer.t) (tokens : token_tensor) :
  Transformer_forward_with SelfAttention.softmax self tokens = Transformer.forward self tokens.
Proof. reflexivity. Qed.













(** ** A softmax that underflows *)












(** ** The residual additions of a block in float32 *)

Lemma const_block_wf : TransformerBlock.wf 2 1 1 1 const_block.
Proof.
  unfold TransformerBlock.wf, LayerNorm.wf, SelfAttention.wf, MLP.wf, Linear.wf,
    has_shape3, has_shape2, has_shape1. simpl.
  repeat match goal with
         | |- _ /\ _ => split
         | |- Forall _ _ => constructor
         | |- _ = _ => reflexivity
         end.
Qed.

(** The sublayers of [const_block] return their output biases. *)
Lemma const_block_sublayers (b p n q m : nat) (x : tensor3) :
  has_shape3 b p 2 x -> (n < b)%nat -> (q < p)%nat -> (m < 2)%nat ->
  tget (SelfAttention.forward (TransformerBlock.attn const_block)
          (LayerNorm.forward (TransformerBlock.ln1 const_block) x)) n q m = 1 /\
  tget (MLP.forward (TransformerBlock.mlp const_block)
          (LayerNorm.forward (TransformerBlock.ln2 const_block)
             (tadd x (SelfAttention.forward (TransformerBlock.attn const_block)
                        (LayerNorm.forward (TransformerBlock.ln1 const_block) x))))) n q m = 0.
Proof.
  intros Hx Hn Hq Hm.
  pose proof (LayerNorm_forward_shape unit_ln _ _ _ _ Hx) as HL.
  pose proof (SelfAttention_forward_shape const_attn _ _ _ _ HL) as HA.
  change (SelfAttention.d_model const_attn) with 2%nat in HA.
  cbn [const_block TransformerBlock.attn TransformerBlock.ln1 TransformerBlock.ln2
       TransformerBlock.mlp].
  split.
  - unfold tget at 1. unfold SelfAttention.forward.
    rewrite (nth_map_lt _ _ n [] []) by (destruct HL; lia).
    pose proof (nth_has_shape2 _ _ _ n _ HL Hn) as [Hlen _].
    rewrite forward_seq_entry by (simpl; lia).
    cbv [rsum tab seq map vsum fold_right SelfAttention.n_heads SelfAttention.d_head const_attn].
    fold const_attn.
    change (SelfAttention.W_O const_attn) with [[[0; 0]]].
    change (SelfAttention.b_O const_attn) with [1; 1].
    destruct m as [|[|m]]; [| |lia]; unfold tget at 2, mget, vget; simpl nth; ring.
  - unfold tget, mget, MLP.forward.
    rewrite (nth2_map_map _ _ b p 2 n q)
      by (auto using LayerNorm_forward_shape, has_shape3_tadd).
    rewrite demo_mlp_zero. destruct m as [|[|m]]; [reflexivity | reflexivity | lia].
Qed.

(** C2, the claim as stated fails on its last part: in float32 the output
    minus the input is not exactly the sum of the two sublayer outputs.  On
    the input [[1e8; 1e8]] the attention of [const_block] returns 1 and its
    MLP returns 0 at every entry; in float32 the block then returns
    [(1e8 + 1) + 0 = 1e8] (the spacing of float32 at [1e8] is 8), so output
    minus input is 0 where the sum of the sublayer outputs is 1. *)
Lemma TransformerBlock_residual_inexact_f32 :
  TransformerBlock.wf 2 1 1 1 const_block /\
  tget (SelfAttention.forward (TransformerBlock.attn const_block)
          (LayerNorm.forward (TransformerBlock.ln1 const_block)
             [[[100000000; 100000000]]])) 0 0 0 = 1 /\
  tget (MLP.forward (TransformerBlock.mlp const_block)
          (LayerNorm.forward (TransformerBlock.ln2 const_block)
             (tadd [[[100000000; 100000000]]]
                   (SelfAttention.forward (TransformerBlock.attn const_block)
                      (LayerNorm.forward (TransformerBlock.ln1 const_block)
                         [[[100000000; 100000000]]]))))) 0 0 0 = 0 /\
  f32_block_entry (f32_of_Z 1) (f32_of_Z 0) (f32_of_Z 100000000) = f32_of_Z 100000000 /\
  f32_sub (f32_block_entry (f32_of_Z 1) (f32_of_Z 0) (f32_of_Z 100000000))
          (f32_of_Z 100000000) = f32_of_Z 0 /\
  f32_add (f32_of_Z 1) (f32_of_Z 0) = f32_of_Z 1 /\
  f32_sub (f32_block_entry (f32_of_Z 1) (f32_of_Z 0) (f32_of_Z 100000000))
          (f32_of_Z 100000000)
    <> f32_add (f32_of_Z 1) (f32_of_Z 0).
Proof.
  split; [exact const_block_wf|].
  assert (Hx : has_shape3 1 1 2 [[[100000000; 100000000]]])
    by (split; [reflexivity | repeat constructor]).
  destruct (const_block_sublayers 1 1 0 0 0 _ Hx ltac:(lia) ltac:(lia) ltac:(lia)) as [Ha Hf].
  split; [exact Ha|]. split; [exact Hf|].
  repeat split; try (vm_compute; reflexivity).
  vm_compute. discriminate.
Qed.

Lemma Transformer_forward_spec_witness :
  exists logits : tensor3,
    Transformer.forward demo_model [[0%Z; 1%Z]] = Ok logits /\
    has_shape3 1 2 2 logits.
Proof.
  destruct (Transformer_forward_spec demo_model demo_config 1 2 [[0%Z; 1%Z]]
              demo_model_wf
              ltac:(split; [reflexivity | repeat constructor])
              ltac:(lia) ltac:(simpl; lia)
              ltac:(repeat constructor; simpl; lia))
    as (embedded & pos_embed & _ & _ & F & S).
  eexists. split; [exact F | exact S].
Defined.

Lemma TransformerBlock_forward_composition_witness :
  tget (TransformerBlock.forward demo_block [[[0; 0]; [2; 0]]]) 0 1 0
    = (2 + tget (SelfAttention.forward demo_attn
                   (LayerNorm.forward unit_ln [[[0; 0]; [2; 0]]])) 0 1 0)
      + tget (MLP.forward demo_mlp
                (LayerNorm.forward unit_ln
                   (tadd [[[0; 0]; [2; 0]]]
                         (SelfAttention.forward demo_attn
                            (LayerNorm.forward unit_ln [[[0; 0]; [2; 0]]]))))) 0 1 0 /\
  has_shape3 1 2 2 (TransformerBlock.forward demo_block [[[0; 0]; [2; 0]]]).
Proof.
  destruct (TransformerBlock_forward_composition demo_block 2 1 1 1 1 2 [[[0; 0]; [2; 0]]]
              demo_block_wf
              ltac:(split; [reflexivity | repeat constructor]))
    as (_ & He & Hs).
  split; [|exact Hs].
  exact (He 0%nat 1%nat 0%nat ltac:(lia) ltac:(lia) ltac:(lia)).
Defined.

Lemma sqrt_INR_4 : sqrt (INR 4) = 2.
Proof.
  replace (INR 4) with (2 * 2) by (simpl; ring). apply sqrt_square. lra.
Qed.

Lemma SelfAttention_scale_mask_softmax_witness :
  tget (SelfAttention.raw_scores demo_attn4 [[0; 0]; [2; 0]]) 0 1 0 = 8 /\
  tget (SelfAttention.masked_scores demo_attn4 [[0; 0]; [2; 0]]) 0 1 0 = 4 /\
  tget (SelfAttention.masked_scores demo_attn4 [[0; 0]; [2; 0]]) 0 0 1 = -100000.
Proof.
  destruct (SelfAttention_scale_mask_softmax demo_attn4 [[[0; 0]; [2; 0]]] 0 0 1 0 0 0
              ltac:(simpl; lia) ltac:(simpl; lia) ltac:(simpl; lia) ltac:(simpl; lia)
              ltac:(simpl; lia) ltac:(simpl; lia))
    as (Hraw & Hscore & _).
  destruct (SelfAttention_scale_mask_softmax demo_attn4 [[[0; 0]; [2; 0]]] 0 0 0 1 0 0
              ltac:(simpl; lia) ltac:(simpl; lia) ltac:(simpl; lia) ltac:(simpl; lia)
              ltac:(simpl; lia) ltac:(simpl; lia))
    as (_ & Hmask & _).
  cbn [nth] in Hraw, Hscore, Hmask.
  split; [|split].
  - rewrite Hraw.
    cbv [rsum tab seq map vsum fold_right SelfAttention.d_model SelfAttention.d_head demo_attn4
         SelfAttention.W_Q SelfAttention.b_Q SelfAttention.W_K SelfAttention.b_K
         tget mget vget nth]. ring.
  - rewrite Hscore.
    cbv [Nat.ltb Nat.leb rsum tab seq map vsum fold_right SelfAttention.d_model
         SelfAttention.d_head demo_attn4
         SelfAttention.W_Q SelfAttention.b_Q SelfAttention.W_K SelfAttention.b_K
         tget mget vget nth].
    rewrite sqrt_INR_4. field.
  - rewrite Hmask. cbv [Nat.ltb Nat.leb SelfAttention.mask_val demo_attn4]. lra.
Defined.

(** ** Sequences longer than the context *)

(** X11.  Where the too long sequence does fail: not in
    [PositionEmbedding.forward] but at [embedded + pos_embed], whose position
    axes have the sizes [position] and [max_ctx]; [Transformer.forward] raises
    RuntimeError there, unless one of the two sizes is 1, in which case the
    addition broadcasts. *)
Lemma Transformer_forward_too_long
      (self : Transformer.t) (c : Config) (b p : nat) (tokens : token_tensor) :
  Transformer.wf c self -> tokens_shape b p tokens ->
  (1 <= b)%nat -> (max_ctx c < p)%nat -> max_ctx c <> 1%nat -> p <> 1%nat ->
  valid_ids (d_vocab c) tokens ->
  Transformer.forward self tokens = Raise RuntimeError.
Proof.
  intros (He & Hp & _) Htok Hb Hlt Hmc Hp1 Hval.
  destruct (EmbeddingLayer_forward_valid _ _ _ b p tokens He Htok Hval) as [Ee Se].
  destruct (PositionEmbedding_forward_clamped _ _ _ b p tokens Hp Htok Hlt) as [Ep Sp].
  unfold Transformer.forward. rewrite Ee, Ep. simpl.
  unfold add_broadcast_pos.
  rewrite (shape1_has_shape3 b p (d_model c) _ Se Hb).
  rewrite (shape1_has_shape3 b (max_ctx c) (d_model c) _ Sp Hb).
  destruct (Nat.eqb_spec p (max_ctx c)); [lia|].
  destruct (Nat.eqb_spec p 1); [lia|].
  destruct (Nat.eqb_spec (max_ctx c) 1); [lia|]. reflexivity.
Qed.

(** * Further properties *)

(** ** Sums over an axis *)

Lemma rsum_S (n : nat) (f : nat -> R) :
  rsum (S n) f = f 0%nat + rsum n (fun i => f (S i)).
Proof. unfold rsum. now rewrite tab_S. Qed.

Lemma rsum_nonneg (n : nat) (f : nat -> R) :
  (forall j, (j < n)%nat -> 0 <= f j) -> 0 <= rsum n f.
Proof.
  revert f. induction n as [|n IH]; intros f Hf.
  - unfold rsum. simpl. lra.
  - rewrite rsum_S.
    pose proof (Hf 0%nat ltac:(lia)).
    pose proof (IH (fun i => f (S i)) ltac:(intros j Hj; apply Hf; lia)). lra.
Qed.

Lemma rsum_ge_term (n k : nat) (f : nat -> R) :
  (forall j, (j < n)%nat -> 0 <= f j) -> (k < n)%nat -> f k <= rsum n f.
Proof.
  revert k f. induction n as [|n IH]; intros k f Hf Hk; [lia|].
  rewrite rsum_S. destruct k as [|k].
  - pose proof (rsum_nonneg n (fun i => f (S i)) ltac:(intros j Hj; apply Hf; lia)). lra.
  - pose proof (Hf 0%nat ltac:(lia)).
    pose proof (IH k (fun i => f (S i)) ltac:(intros j Hj; apply Hf; lia) ltac:(lia)). lra.
Qed.

(** ** The attention pattern *)

(** X2.  The weight that query position [q] gives to a masked key position
    [k > q] is at most [exp (mask_val - s)], where [s] is the scaled score of
    [q] against itself: the leak through the finite mask is small exactly when
    the unmasked scores lie far above the mask value. *)
Theorem attn_pattern_masked_weight_bound (self : SelfAttention.t) (x : mat) (h q k : nat) :
  (h < SelfAttention.n_heads self)%nat -> (q < k)%nat -> (k < length x)%nat ->
  tget (SelfAttention.attn_pattern self x) h q k
    <= exp (SelfAttention.mask_val self
            - tget (SelfAttention.raw_scores self x) h q q
              / sqrt (INR (SelfAttention.d_head self))).
Proof.
  intros Hh Hqk Hk.
  rewrite attn_pattern_entry by lia.
  set (s := fun j => tget (SelfAttention.masked_scores self x) h q j).
  assert (Hsk : s k = SelfAttention.mask_val self).
  { subst s. cbv beta. rewrite masked_scores_entry by lia.
    destruct (Nat.ltb_spec q k); [reflexivity | lia]. }
  assert (Hsq : s q = tget (SelfAttention.raw_scores self x) h q q
                      / sqrt (INR (SelfAttention.d_head self))).
  { subst s. cbv beta. rewrite masked_scores_entry by lia.
    destruct (Nat.ltb_spec q q); [lia | reflexivity]. }
  fold (s k). change (fun j => exp (tget (SelfAttention.masked_scores self x) h q j))
    with (fun j => exp (s j)).
  rewrite Hsk, <- Hsq.
  assert (Hz : exp (s q) <= rsum (length x) (fun j => exp (s j))).
  { apply (rsum_ge_term (length x) q (fun j => exp (s j))); [|lia].
    intros j _. left. apply exp_pos. }
  pose proof (exp_pos (s q)) as Hq. pose proof (exp_pos (SelfAttention.mask_val self)) as Hm.
  unfold Rminus. rewrite exp_plus, exp_Ropp.
  unfold Rdiv. apply Rmult_le_compat_l; [lra|].
  apply Rinv_le_contravar; assumption.
Qed.

(** ** Softmax and the loss under a shift of the logits *)

Lemma vsum_map_exp_shift (c : R) (row : vec) :
  vsum (map exp (map (fun s => s + c) row)) = exp c * vsum (map exp row).
Proof.
  induction row as [|a row IH]; simpl; [ring|].
  rewrite IH, exp_plus. ring.
Qed.

Lemma vsum_map_exp_pos (row : vec) : row <> [] -> 0 < vsum (map exp row).
Proof.
  intros H. rewrite vsum_map_rsum. apply rsum_pos.
  - destruct row; [congruence | simpl; lia].
  - intros j _. apply exp_pos.
Qed.

Lemma log_softmax_shift (c : R) (row : vec) :
  log_softmax (map (fun s => s + c) row) = log_softmax row.
Proof.
  destruct row as [|a row]; [reflexivity|].
  unfold log_softmax. rewrite vsum_map_exp_shift, map_map.
  rewrite ln_mult by (try apply exp_pos; apply vsum_map_exp_pos; discriminate).
  rewrite ln_exp. apply map_ext. intros s. ring.
Qed.

(** X3.  Adding one constant to every logit changes nothing in
    [cross_entropy_lm]: the log-softmax removes it. *)
Theorem cross_entropy_lm_shift_invariant (c : R) (logits : tensor3) (tokens : token_tensor) :
  cross_entropy_lm (map (map (map (fun s => s + c))) logits) tokens
    = cross_entropy_lm logits tokens.
Proof.
  unfold cross_entropy_lm. do 2 f_equal. f_equal.
  rewrite map_map. apply map_ext. intros m.
  rewrite map_map. apply map_ext. intros row. apply log_softmax_shift.
Qed.

(** ** gelu_new *)

Lemma tanh_bounds (x : R) : -1 < tanh x < 1.
Proof.
  rewrite tanh_exp. pose proof (exp_pos x) as Hx.
  set (a := exp x * exp x). assert (Ha : 0 < a) by (subst a; nra).
  split.
  - apply (Rmult_lt_reg_r (a + 1)); [lra|].
    unfold Rdiv. rewrite Rmult_assoc, Rinv_l by lra. lra.
  - apply (Rmult_lt_reg_r (a + 1)); [lra|].
    unfold Rdiv. rewrite Rmult_assoc, Rinv_l by lra. lra.
Qed.

(** X4.  [gelu_new] maps 0 to 0 and every input to a value between 0 and
    the input itself: it never changes the sign and never enlarges. *)
Theorem gelu_new_between_zero_and_input (x : R) :
  gelu_new 0 = 0 /\ Rmin 0 x <= gelu_new x <= Rmax 0 x.
Proof.
  split; [unfold gelu_new; ring|].
  unfold gelu_new.
  pose proof (tanh_bounds (sqrt (2.0 / PI) * (x + 0.04715 * x ^ 3))) as [Hl Hu].
  set (t := tanh _) in *.
  unfold Rmin, Rmax. destruct (Rle_dec 0 x); split; nra.
Qed.

(** ** Constant rows *)

Lemma vsum_repeat (c : R) (n : nat) : vsum (repeat c n) = INR n * c.
Proof.
  induction n as [|n IH]; [simpl; ring|].
  change (vsum (repeat c (S n))) with (c + vsum (repeat c n)).
  rewrite IH, S_INR. ring.
Qed.

Lemma vget_repeat (c : R) (n i : nat) : (i < n)%nat -> vget (repeat c n) i = c.
Proof. intros H. unfold vget. now apply nth_repeat_lt. Qed.

(** ** MLP and UnembeddingLayer *)

(** X8.  [MLP.forward] keeps the shape [batch, position, d_model] and works
    on every position on its own: entry [j] of the output at a position is
    [sum_k gelu_new (sum_i x_i * W_in[k][i] + b_in[k]) * W_out[j][k] + b_out[j]]
    for the input [x] at that same position. *)
Theorem MLP_forward_positionwise
        (self : MLP.t) (d_mlp d_model b p n q j : nat) (x : tensor3) :
  MLP.wf d_mlp d_model self -> has_shape3 b p d_model x ->
  (n < b)%nat -> (q < p)%nat -> (j < d_model)%nat ->
  has_shape3 b p d_model (MLP.forward self x) /\
  tget (MLP.forward self x) n q j
    = rsum d_mlp (fun k =>
        gelu_new (rsum d_model (fun i =>
                    tget x n q i * mget (Linear.weight (MLP.input_layer self)) k i)
                  + vget (Linear.lbias (MLP.input_layer self)) k)
        * mget (Linear.weight (MLP.output_layer self)) j k)
      + vget (Linear.lbias (MLP.output_layer self)) j.
Proof.
  intros [(Hi1 & Ho1 & _) (Hi2 & Ho2 & _)] Hx Hn Hq Hj. split.
  - rewrite <- Ho2. now apply MLP_forward_shape with (d := d_model).
  - unfold tget, mget, MLP.forward.
    rewrite (nth2_map_map _ _ b p d_model n q Hx) by assumption.
    unfold MLP.forward_vec, Linear.forward_vec.
    rewrite Hi1, Ho1, Hi2, Ho2.
    unfold vget at 1. rewrite nth_tab by assumption.
    f_equal. apply rsum_ext. intros k Hk. f_equal.
    rewrite (vget_map MLP.act_fn) by now rewrite length_tab.
    unfold vget at 1. now rewrite nth_tab by assumption.
Qed.




(** ** PositionEmbedding *)

(** X10.  [PositionEmbedding.forward] looks only at the shape of the token
    tensor: two tensors of the same shape get the same result, which is the
    first [position] rows of the table for every sequence of the batch. *)
Theorem PositionEmbedding_forward_shape_only
        (self : PositionEmbedding.t) (b p : nat) (toks toks' : token_tensor) :
  tokens_shape b p toks -> tokens_shape b p toks' -> (1 <= b)%nat ->
  PositionEmbedding.forward self toks = PositionEmbedding.forward self toks' /\
  PositionEmbedding.forward self toks
    = Ok (repeat (firstn p (PositionEmbedding.W_P self)) b).
Proof.
  intros [Hb Hp] [Hb' Hp'] H1.
  assert (E : forall t : token_tensor, length t = b -> Forall (fun r => length r = p) t ->
              PositionEmbedding.forward self t
              = Ok (repeat (firstn p (PositionEmbedding.W_P self)) b)).
  { intros t Ht Hall. unfold PositionEmbedding.forward, PositionEmbedding.slice_to, shape0.
    rewrite Ht. destruct t as [|r t]; simpl in *; [lia|].
    inversion Hall; subst. reflexivity. }
  rewrite (E toks), (E toks') by assumption. split; reflexivity.
Qed.

(** ** Transformer.forward at the edges of its input *)

Lemma EmbeddingLayer_forward_raises (self : EmbeddingLayer.t) (toks : token_tensor) :
  Exists (Exists (fun id => (id < - Z.of_nat (length (EmbeddingLayer.W_E self))
                             \/ Z.of_nat (length (EmbeddingLayer.W_E self)) <= id)%Z)) toks ->
  EmbeddingLayer.forward self toks = Raise IndexError.
Proof.
  intros Hex. unfold EmbeddingLayer.forward. apply mapM_raise.
  - intros r e'. apply mapM_only_raises. intros id e''. apply index_row_only_IndexError.
  - eapply Exists_impl; [|exact Hex]. intros r Hr. apply mapM_raise.
    + intros id e'. apply index_row_only_IndexError.
    + eapply Exists_impl; [|exact Hr]. intros id Hid. now apply index_row_out_of_range.
Qed.

(** X12.  A token id outside [[-d_vocab, d_vocab)] anywhere in the tensor
    makes [Transformer.forward] raise IndexError: the embedding lookup is the
    first step and nothing catches its exception. *)
Theorem Transformer_forward_id_out_of_range
        (self : Transformer.t) (c : Config) (tokens : token_tensor) :
  Transformer.wf c self ->
  Exists (Exists (fun id => (id < - Z.of_nat (d_vocab c) \/ Z.of_nat (d_vocab c) <= id)%Z))
         tokens ->
  Transformer.forward self tokens = Raise IndexError.
Proof.
  intros ([Hlen _] & _) Hex. unfold Transformer.forward.
  rewrite EmbeddingLayer_forward_raises; [reflexivity|].
  now rewrite Hlen.
Qed.

Lemma shape1_map_map {A B : Type} (f : A -> B) (x : list (list A)) :
  shape1 (map (map f) x) = shape1 x.
Proof. destruct x as [|r x]; simpl; [reflexivity | apply length_map]. Qed.

Lemma mapM_map {A B C : Type} (f : B -> result C) (h : A -> B) (l : list A) :
  mapM f (map h l) = mapM (fun a => f (h a)) l.
Proof. induction l as [|a l IH]; simpl; [reflexivity | now rewrite IH]. Qed.

Lemma index_row_wrap_id (W : mat) (id : Z) :
  (- Z.of_nat (length W) <= id < Z.of_nat (length W))%Z ->
  EmbeddingLayer.index_row W (wrap_id (length W) id) = Ok (wrapped_row W id).
Proof.
  intros H.
  assert (Hw : (0 <= wrap_id (length W) id < Z.of_nat (length W))%Z).
  { unfold wrap_id. destruct (Z.ltb_spec id 0); lia. }
  rewrite index_row_in_range by lia. f_equal.
  unfold wrapped_row at 1. fold (wrap_id (length W) id).
  destruct (Z.ltb_spec (wrap_id (length W) id) 0); [lia | reflexivity].
Qed.

(** X13.  A negative id [-k] with [k <= d_vocab] is not an error: the whole
    forward pass treats it exactly as the id [d_vocab - k]. *)
Theorem Transformer_forward_negative_ids
        (self : Transformer.t) (c : Config) (tokens : token_tensor) :
  Transformer.wf c self ->
  Forall (Forall (fun id => (- Z.of_nat (d_vocab c) <= id < Z.of_nat (d_vocab c))%Z)) tokens ->
  Transformer.forward self tokens
    = Transformer.forward self (map (map (wrap_id (d_vocab c))) tokens).
Proof.
  intros ([Hlen _] & _) Hall.
  assert (E1 : EmbeddingLayer.forward (Transformer.embed self) tokens
               = Ok (map (map (wrapped_row (EmbeddingLayer.W_E (Transformer.embed self))))
                         tokens)).
  { apply mapM_ok. eapply Forall_impl; [|exact Hall]. intros r Hr.
    apply mapM_ok. eapply Forall_impl; [|exact Hr]. intros id Hid.
    apply index_row_in_range. now rewrite Hlen. }
  assert (E2 : EmbeddingLayer.forward (Transformer.embed self)
                 (map (map (wrap_id (d_vocab c))) tokens)
               = Ok (map (map (wrapped_row (EmbeddingLayer.W_E (Transformer.embed self))))
                         tokens)).
  { unfold EmbeddingLayer.forward. rewrite mapM_map.
    apply mapM_ok. eapply Forall_impl; [|exact Hall]. intros r Hr. cbv beta.
    rewrite mapM_map. apply mapM_ok. eapply Forall_impl; [|exact Hr]. intros id Hid.
    cbv beta. rewrite <- Hlen. apply index_row_wrap_id. now rewrite Hlen. }
  unfold Transformer.forward. rewrite E1, E2.
  unfold PositionEmbedding.forward, shape0.
  now rewrite shape1_map_map, length_map.
Qed.

(** X14.  With a context of one position ([max_ctx = 1]) a longer sequence
    is not rejected either: the addition broadcasts the single positional
    row, every position of the residual stream receives row 0 of [W_P], and
    [Transformer.forward] returns logits of the full shape. *)
Theorem Transformer_forward_ctx1_broadcasts
        (self : Transformer.t) (c : Config) (b p : nat) (tokens : token_tensor) :
  Transformer.wf c self -> max_ctx c = 1%nat -> tokens_shape b p tokens ->
  (1 <= b)%nat -> (2 <= p)%nat -> valid_ids (d_vocab c) tokens ->
  exists x logits : tensor3,
    Transformer.initial_resid self tokens = Ok x /\
    (forall n q, (n < b)%nat -> (q < p)%nat ->
       nth q (nth n x []) []
         = vadd (nth (Z.to_nat (nth q (nth n tokens []) 0%Z))
                     (EmbeddingLayer.W_E (Transformer.embed self)) [])
                (nth 0 (PositionEmbedding.W_P (Transformer.pos_embed self)) [])) /\
    Transformer.forward self tokens = Ok logits /\
    has_shape3 b p (d_vocab c) logits.
Proof.
  intros Hwf Hmc Htok Hb Hp Hval.
  pose proof Hwf as (He & HP & Hblocks & Hln & Hu).
  destruct (EmbeddingLayer_forward_valid _ _ _ b p tokens He Htok Hval) as [Ee Se].
  rewrite Hmc in HP.
  destruct (PositionEmbedding_forward_clamped _ _ _ b p tokens HP Htok ltac:(lia)) as [Ep Sp].
  set (emb := map (map (fun id => nth (Z.to_nat id)
                                      (EmbeddingLayer.W_E (Transformer.embed self)) [])) tokens)
    in *.
  set (WP := PositionEmbedding.W_P (Transformer.pos_embed self)) in *.
  assert (Hadd : add_broadcast_pos emb (repeat WP b)
                 = Ok (tadd emb (repeat (repeat (nth 0 WP []) p) b))).
  { unfold add_broadcast_pos.
    rewrite (shape1_has_shape3 b p (d_model c) _ Se Hb).
    rewrite (shape1_has_shape3 b 1 (d_model c) _ Sp Hb).
    destruct (Nat.eqb_spec p 1); [lia|]. simpl. now rewrite map_repeat. }
  assert (Hrow0 : has_shape1 (d_model c) (nth 0 WP [])).
  { apply (nth_has_shape1 1 (d_model c) 0 WP HP). lia. }
  assert (Hpos : has_shape3 b p (d_model c) (repeat (repeat (nth 0 WP []) p) b)).
  { split; [apply repeat_length|]. apply Forall_forall. intros m Hm.
    apply repeat_spec in Hm. subst m. split; [apply repeat_length|].
    apply Forall_forall. intros v Hv. apply repeat_spec in Hv. now subst v. }
  pose proof (has_shape3_tadd _ _ _ _ _ Se Hpos) as Sx.
  eexists _, _. split; [|split; [|split]].
  - unfold Transformer.initial_resid. rewrite Ee, Ep. simpl. exact Hadd.
  - intros n q Hn Hq. destruct Htok as [Hlen Hall].
    assert (Hrow : length (nth n tokens []) = p).
    { rewrite Forall_forall in Hall. apply Hall, nth_In. lia. }
    unfold tadd. rewrite (nth_zipWith _ _ _ n [] [] [])
      by (subst emb; rewrite ?length_map, ?repeat_length; lia).
    rewrite nth_repeat_lt by lia.
    unfold madd. subst emb. rewrite (nth_map_lt _ tokens n [] []) by lia.
    rewrite (nth_zipWith _ _ _ q [] [] []) by (rewrite ?length_map, ?repeat_length; lia).
    rewrite (nth_map_lt _ _ q [] 0%Z) by lia.
    now rewrite nth_repeat_lt by lia.
  - unfold Transformer.forward. rewrite Ee, Ep. simpl. rewrite Hadd. reflexivity.
  - assert (Hdv : UnembeddingLayer.d_vocab (Transformer.unembed self) = d_vocab c) by apply Hu.
    rewrite <- Hdv. eapply UnembeddingLayer_forward_shape, LayerNorm_forward_shape.
    apply (run_blocks_shape c); eassumption.
Qed.

(** ** The sequences of a batch do not interact *)

Lemma zipWith_map_r {A B : Type} (f : A -> B -> A) (g : A -> B) (l : list A) :
  zipWith f l (map g l) = map (fun a => f a (g a)) l.
Proof. induction l as [|a l IH]; simpl; [reflexivity | now rewrite IH]. Qed.

Lemma zipWith_repeat_r {A B C : Type} (f : A -> B -> C) (c : B) (l : list A) :
  zipWith f l (repeat c (length l)) = map (fun a => f a c) l.
Proof. induction l as [|a l IH]; simpl; [reflexivity | now rewrite IH]. Qed.

Lemma TransformerBlock_forward_map (blk : TransformerBlock.t) (x : tensor3) :
  TransformerBlock.forward blk x
    = map (fun m => nth 0 (TransformerBlock.forward blk [m]) []) x.
Proof.
  unfold TransformerBlock.forward, LayerNorm.forward, SelfAttention.forward, MLP.forward, tadd.
  rewrite !map_map. rewrite !zipWith_map_r. rewrite map_map.
  apply map_ext. intros m. reflexivity.
Qed.

Lemma TransformerBlock_forward_single (blk : TransformerBlock.t) (m : mat) :
  TransformerBlock.forward blk [m] = [nth 0 (TransformerBlock.forward blk [m]) []].
Proof. reflexivity. Qed.

Lemma run_blocks_map (blocks : list TransformerBlock.t) (x : tensor3) :
  Transformer.run_blocks blocks x
    = map (fun m => nth 0 (Transformer.run_blocks blocks [m]) []) x.
Proof.
  revert x. induction blocks as [|blk blocks IH]; intros x.
  - simpl. now rewrite map_id.
  - change (Transformer.run_blocks (blk :: blocks) x)
      with (Transformer.run_blocks blocks (TransformerBlock.forward blk x)).
    rewrite IH, TransformerBlock_forward_map, map_map.
    apply map_ext. intros m.
    change (Transformer.run_blocks (blk :: blocks) [m])
      with (Transformer.run_blocks blocks (TransformerBlock.forward blk [m])).
    now rewrite <- TransformerBlock_forward_single.
Qed.

Lemma Transformer_forward_rows
      (self : Transformer.t) (c : Config) (b p : nat) (tokens : token_tensor) :
  Transformer.wf c self -> tokens_shape b p tokens ->
  (1 <= b)%nat -> (p <= max_ctx c)%nat -> valid_ids (d_vocab c) tokens ->
  Transformer.forward self tokens
    = Ok (map (fun r =>
            map (UnembeddingLayer.logits_at (Transformer.unembed self))
              (map (LayerNorm.forward_vec (Transformer.ln self))
                 (nth 0 (Transformer.run_blocks (Transformer.transformer self)
                           [madd (map (fun id => nth (Z.to_nat id)
                                        (EmbeddingLayer.W_E (Transformer.embed self)) []) r)
                                 (firstn p (PositionEmbedding.W_P
                                              (Transformer.pos_embed self)))]) [])))
            tokens).
Proof.
  intros (He & HP & _) Htok Hb Hp Hval.
  destruct (EmbeddingLayer_forward_valid _ _ _ b p tokens He Htok Hval) as [Ee Se].
  destruct (PositionEmbedding_forward_shape _ _ _ b p tokens HP Htok Hb Hp) as [Ep Sp].
  unfold Transformer.forward. rewrite Ee, Ep. cbn [bind].
  rewrite (add_broadcast_pos_same b p (d_model c)) by assumption. cbn [bind].
  f_equal. unfold UnembeddingLayer.forward, LayerNorm.forward.
  rewrite run_blocks_map. unfold tadd.
  destruct Htok as [Hlen _].
  replace b with (length (map (map (fun id => nth (Z.to_nat id)
                    (EmbeddingLayer.W_E (Transformer.embed self)) [])) tokens))
    by now rewrite length_map.
  rewrite zipWith_repeat_r. rewrite !map_map. reflexivity.
Qed.

(** X15.  The sequences of a batch do not interact: the logits that
    [Transformer.forward] returns for sequence [n] of a batch are the logits
    it returns for that sequence alone. *)
Theorem Transformer_forward_batch_independent
        (self : Transformer.t) (c : Config) (b p n : nat) (tokens : token_tensor) :
  Transformer.wf c self -> tokens_shape b p tokens ->
  (p <= max_ctx c)%nat -> valid_ids (d_vocab c) tokens -> (n < b)%nat ->
  exists logits : tensor3,
    Transformer.forward self tokens = Ok logits /\
    Transformer.forward self [nth n tokens []] = Ok [nth n logits []].
Proof.
  intros Hwf Htok Hp Hval Hn.
  assert (Hrow : tokens_shape 1 p [nth n tokens []]).
  { split; [reflexivity|]. constructor; [|constructor].
    destruct Htok as [Hlen Hall]. rewrite Forall_forall in Hall. apply Hall, nth_In. lia. }
  assert (Hvrow : valid_ids (d_vocab c) [nth n tokens []]).
  { constructor; [|constructor]. unfold valid_ids in Hval. rewrite Forall_forall in Hval.
    apply Hval, nth_In. destruct Htok. lia. }
  eexists. split.
  - apply (Transformer_forward_rows self c b p); auto. lia.
  - rewrite (Transformer_forward_rows self c 1 p) by auto.
    simpl map at 1. f_equal. f_equal.
    rewrite (nth_map_lt _ tokens n [] []) by (destruct Htok; lia). reflexivity.
Qed.

(** ** cross_entropy_lm at the edges of its input *)

Lemma gather_entry_only_RuntimeError (row : vec) (id : Z) (e : exn) :
  gather_entry row id = Raise e -> e = RuntimeError.
Proof. unfold gather_entry. destruct (_ && _)%bool; congruence. Qed.

Lemma gather_seq_raises (V : nat) (rows : mat) (index : list Z) :
  Forall (has_shape1 V) rows ->
  Exists (fun id => (id < 0 \/ Z.of_nat V <= id)%Z) index ->
  gather_seq rows index = Raise RuntimeError.
Proof.
  intros Hrows Hex. revert rows Hrows.
  induction Hex as [id index Hid | id index _ IH]; intros rows Hrows.
  - destruct rows as [|row rows]; [reflexivity|]. simpl.
    inversion Hrows as [|? ? Hrow _]; subst. unfold gather_entry.
    unfold has_shape1 in Hrow. rewrite Hrow.
    replace ((0 <=? id) && (id <? Z.of_nat V))%Z%bool with false; [reflexivity|].
    symmetry. apply andb_false_iff.
    destruct Hid; [left; apply Z.leb_gt | right; apply Z.ltb_ge]; lia.
  - destruct rows as [|row rows]; [reflexivity|]. simpl.
    inversion Hrows; subst.
    destruct (gather_entry row id) as [g|e] eqn:E; simpl.
    + now rewrite IH.
    + now rewrite (gather_entry_only_RuntimeError _ _ _ E).
Qed.

Lemma gather_seq_only_RuntimeError (rows : mat) (index : list Z) (e : exn) :
  gather_seq rows index = Raise e -> e = RuntimeError.
Proof.
  revert rows. induction index as [|id index IH]; intros rows H; [discriminate|].
  destruct rows as [|row rows]; simpl in H; [congruence|].
  destruct (gather_entry row id) as [g|e1] eqn:E; simpl in H.
  - destruct (gather_seq rows index) as [gs|e2] eqn:E2; simpl in H; [discriminate|].
    injection H as <-. now apply (IH rows).
  - injection H as <-. now apply (gather_entry_only_RuntimeError row id).
Qed.

Lemma gather_rows_raises (input : tensor3) (index : token_tensor) :
  (exists n, (n < length index)%nat /\
             gather_seq (nth n input []) (nth n index []) = Raise RuntimeError) ->
  gather_rows input index = Raise RuntimeError.
Proof.
  revert input. induction index as [|ix index IH]; intros input (n & Hn & H); [simpl in Hn; lia|].
  destruct input as [|x input].
  - reflexivity.
  - simpl. destruct (gather_seq x ix) as [g|e] eqn:E; simpl.
    + destruct n as [|n]; [simpl in H; congruence|].
      rewrite (IH input); [reflexivity|]. exists n. split; [simpl in Hn; lia | exact H].
    + now rewrite (gather_seq_only_RuntimeError _ _ _ E).
Qed.

Lemma gather_batch_raises (input : tensor3) (index : token_tensor) :
  (exists n, (n < length index)%nat /\
             gather_seq (nth n input []) (nth n index []) = Raise RuntimeError) ->
  gather_batch input index = Raise RuntimeError.
Proof.
  intros (n & Hn & H). unfold gather_batch. destruct (index_is_empty index) eqn:E.
  - rewrite (index_is_empty_nth _ n E) in H. discriminate.
  - apply gather_rows_raises. eauto.
Qed.

(** X16.  A target token outside [[0, d_vocab)] at any position but the
    first makes [cross_entropy_lm] raise RuntimeError: [torch.gather] does
    not count a negative index from the end. *)
Theorem cross_entropy_lm_token_out_of_range
        (logits : tensor3) (tokens : token_tensor) (b p V n i : nat) :
  has_shape3 b p V logits -> tokens_shape b p tokens ->
  (n < b)%nat -> (1 <= i < p)%nat ->
  (nth i (nth n tokens []) 0 < 0 \/ Z.of_nat V <= nth i (nth n tokens []) 0)%Z ->
  cross_entropy_lm logits tokens = Raise RuntimeError.
Proof.
  intros Hlog [Hlen Hall] Hn Hi Hbad.
  unfold cross_entropy_lm. rewrite gather_batch_raises; [reflexivity|].
  exists n. split; [now rewrite length_map, Hlen|].
  rewrite !nth_map_nil by reflexivity.
  assert (Hrow : length (nth n tokens []) = p).
  { rewrite Forall_forall in Hall. apply Hall, nth_In. lia. }
  apply (gather_seq_raises V).
  - pose proof (nth_has_shape2 _ _ _ n _ Hlog Hn) as [_ Hx].
    apply Forall_forall. intros r Hr.
    assert (Hin : In r (map log_softmax (nth n logits []))).
    { rewrite removelast_firstn_len in Hr.
      rewrite <- (firstn_skipn (pred (length (map log_softmax (nth n logits []))))
                    (map log_softmax (nth n logits []))).
      apply in_or_app. now left. }
    apply in_map_iff in Hin. destruct Hin as (r0 & <- & Hr0).
    rewrite Forall_forall in Hx. specialize (Hx r0 Hr0).
    unfold has_shape1, log_softmax in *. now rewrite length_map.
  - apply Exists_exists. exists (nth i (nth n tokens []) 0%Z). split; [|exact Hbad].
    destruct i as [|i]; [lia|]. rewrite <- nth_tl. apply nth_In.
    destruct (nth n tokens []); simpl in *; lia.
Qed.

(** X17.  [cross_entropy_lm] never reads the first token of a sequence nor
    the logits of its last position: two calls whose inputs differ only
    there return the same result. *)
Theorem cross_entropy_lm_unread_inputs
        (logits logits' : tensor3) (tokens tokens' : token_tensor) (b p V : nat) :
  has_shape3 b p V logits -> has_shape3 b p V logits' ->
  tokens_shape b p tokens -> tokens_shape b p tokens' ->
  (forall n i, (n < b)%nat -> (i + 1 < p)%nat ->
     nth i (nth n logits []) [] = nth i (nth n logits' []) []) ->
  (forall n i, (n < b)%nat -> (1 <= i < p)%nat ->
     nth i (nth n tokens []) 0%Z = nth i (nth n tokens' []) 0%Z) ->
  cross_entropy_lm logits tokens = cross_entropy_lm logits' tokens'.
Proof.
  intros Hl Hl' [Hb Hall] [Hb' Hall'] Hlog Htok.
  assert (Hrow : forall t : token_tensor, length t = b -> Forall (fun r => length r = p) t ->
            forall n, (n < b)%nat -> length (nth n t []) = p).
  { intros t Ht Ha n Hn. rewrite Forall_forall in Ha. apply Ha, nth_In. lia. }
  assert (Et : map (@tl Z) tokens = map (@tl Z) tokens').
  { apply (nth_ext _ _ [] []); [rewrite !length_map; congruence|].
    rewrite length_map, Hb. intros n Hn. rewrite !nth_map_nil by reflexivity.
    pose proof (Hrow tokens Hb Hall n Hn) as H1.
    pose proof (Hrow tokens' Hb' Hall' n Hn) as H2.
    apply (nth_ext _ _ 0%Z 0%Z).
    - destruct (nth n tokens []), (nth n tokens' []); simpl in *; lia.
    - intros i Hi. rewrite !nth_tl. apply Htok; [assumption|].
      destruct (nth n tokens []); simpl in *; lia. }
  assert (El : map (@removelast vec) (map (map log_softmax) logits)
               = map (@removelast vec) (map (map log_softmax) logits')).
  { apply (nth_ext _ _ [] []); [rewrite !length_map; destruct Hl, Hl'; congruence|].
    rewrite !length_map. destruct Hl as [HbL HL], Hl' as [HbL' HL']. rewrite HbL.
    intros n Hn. rewrite !nth_map_nil by reflexivity.
    assert (H1 : length (nth n logits []) = p).
    { rewrite Forall_forall in HL. apply HL, nth_In. lia. }
    assert (H2 : length (nth n logits' []) = p).
    { rewrite Forall_forall in HL'. apply HL', nth_In. lia. }
    apply (nth_ext _ _ [] []).
    - rewrite !length_removelast, !length_map. lia.
    - rewrite length_removelast, length_map, H1. intros i Hi.
      rewrite !nth_removelast by (rewrite length_map; lia).
      rewrite !nth_map_nil by reflexivity. f_equal. apply Hlog; lia. }
  unfold cross_entropy_lm. now rewrite Et, El.
Qed.

(** ** The sign and the uniform baseline of the loss *)

Lemma log_softmax_nonpos (row : vec) : Forall (fun l => l <= 0) (log_softmax row).
Proof.
  unfold log_softmax. apply Forall_forall. intros l Hl.
  apply in_map_iff in Hl. destruct Hl as (s & <- & Hs).
  destruct (In_nth _ _ 0 Hs) as (k & Hk & Ek).
  assert (Hz : exp s <= vsum (map exp row)).
  { rewrite vsum_map_rsum. rewrite <- Ek.
    apply (rsum_ge_term (length row) k (fun j => exp (vget row j))); [|exact Hk].
    intros j _. left. apply exp_pos. }
  pose proof (exp_pos s) as Hpos.
  assert (Hln : s <= ln (vsum (map exp row))).
  { rewrite <- (ln_exp s) at 1. destruct Hz as [Hlt|Heq].
    - left. now apply ln_increasing.
    - right. now rewrite Heq. }
  lra.
Qed.

Lemma gather_seq_Forall (P : R -> Prop) (rows : mat) (index : list Z) (g : vec) :
  Forall (Forall P) rows -> gather_seq rows index = Ok g ->
  Forall P g /\ length g = length index.
Proof.
  revert rows g. induction index as [|id index IH]; intros rows g Hrows H.
  - injection H as <-. split; [constructor | reflexivity].
  - destruct rows as [|row rows]; simpl in H; [discriminate|].
    inversion Hrows as [|? ? Hrow Hrest]; subst.
    destruct (gather_entry row id) as [a|e] eqn:E; simpl in H; [|discriminate].
    destruct (gather_seq rows index) as [gs|e] eqn:E2; simpl in H; [|discriminate].
    injection H as <-. destruct (IH rows gs Hrest E2) as [HP Hlen].
    split; [|simpl; congruence]. constructor; [|exact HP].
    unfold gather_entry in E. destruct (_ && _)%bool eqn:Hb; [|discriminate].
    injection E as <-. apply andb_true_iff in Hb. destruct Hb as [H0 H1].
    apply Z.leb_le in H0. apply Z.ltb_lt in H1.
    rewrite Forall_forall in Hrow. apply Hrow, nth_In. lia.
Qed.

Lemma gather_rows_Forall (P : vec -> Prop) (input : tensor3) (index : token_tensor) (g : mat) :
  (forall n r, (n < length index)%nat ->
               gather_seq (nth n input []) (nth n index []) = Ok r -> P r) ->
  gather_rows input index = Ok g -> Forall P g.
Proof.
  revert input g. induction index as [|ix index IH]; intros input g HP H.
  - injection H as <-. constructor.
  - destruct input as [|x input]; simpl in H; [discriminate|].
    destruct (gather_seq x ix) as [r|e] eqn:E; simpl in H; [|discriminate].
    destruct (gather_rows input index) as [gs|e] eqn:E2; simpl in H; [|discriminate].
    injection H as <-. constructor.
    + apply (HP 0%nat r); [simpl; lia | exact E].
    + apply (IH input gs); [|exact E2]. intros n r' Hn Hr'.
      apply (HP (S n) r'); [simpl; lia | exact Hr'].
Qed.

Lemma gather_batch_Forall (P : vec -> Prop) (input : tensor3) (index : token_tensor) (g : mat) :
  (forall n r, (n < length index)%nat ->
               gather_seq (nth n input []) (nth n index []) = Ok r -> P r) ->
  gather_batch input index = Ok g -> Forall P g.
Proof.
  intros HP H. unfold gather_batch in H.
  destruct (index_is_empty index) eqn:E; [|eapply gather_rows_Forall; eauto].
  injection H as <-. apply Forall_forall. intros r Hr.
  apply in_map_iff in Hr. destruct Hr as (ix & <- & Hix).
  destruct (In_nth _ _ [] Hix) as (n & Hn & _).
  apply (HP n []); [exact Hn|]. now rewrite (index_is_empty_nth _ n E).
Qed.

Lemma vsum_nonpos (v : vec) : Forall (fun l => l <= 0) v -> vsum v <= 0.
Proof. induction 1 as [|a v Ha _ IH]; simpl; lra. Qed.

(** X18.  Whenever [cross_entropy_lm] returns, on token tensors of at least
    two positions, every entry of its result is at most 0: it is a mean of
    log-probabilities, not a loss to minimise. *)
Theorem cross_entropy_lm_nonpositive
        (logits : tensor3) (tokens : token_tensor) (b p : nat) (loss : vec) :
  tokens_shape b p tokens -> (2 <= p)%nat ->
  cross_entropy_lm logits tokens = Ok loss ->
  Forall (fun l => l <= 0) loss.
Proof.
  intros [Hb Hall] Hp H. unfold cross_entropy_lm in H.
  destruct (gather_batch _ _) as [g|e] eqn:E; simpl in H; [|discriminate].
  injection H as <-.
  assert (Hg : Forall (fun r => Forall (fun l => l <= 0) r /\ length r = (p - 1)%nat) g).
  { apply (gather_batch_Forall _ _ _ _ ) with (2 := E).
    rewrite length_map. intros n r Hn Hr.
    rewrite !nth_map_nil in Hr by reflexivity.
    apply gather_seq_Forall with (P := fun l => l <= 0) in Hr.
    - destruct Hr as [HP Hlen]. split; [exact HP|]. rewrite Hlen.
      assert (Hrow : length (nth n tokens []) = p).
      { rewrite Forall_forall in Hall. apply Hall, nth_In. lia. }
      destruct (nth n tokens []); simpl in *; lia.
    - apply Forall_forall. intros row Hrow.
      rewrite removelast_firstn_len in Hrow.
      assert (Hin : In row (map log_softmax (nth n logits []))).
      { rewrite <- (firstn_skipn (pred (length (map log_softmax (nth n logits []))))
                      (map log_softmax (nth n logits []))).
        apply in_or_app. now left. }
      apply in_map_iff in Hin. destruct Hin as (r0 & <- & _). apply log_softmax_nonpos. }
  apply Forall_forall. intros l Hl. apply in_map_iff in Hl.
  destruct Hl as (r & <- & Hr). rewrite Forall_forall in Hg. destruct (Hg r Hr) as [HP Hlen].
  unfold mean. rewrite Hlen.
  assert (Hpos : 0 < INR (p - 1)) by (apply lt_0_INR; lia).
  pose proof (vsum_nonpos r HP) as Hs.
  unfold Rdiv. assert (0 < / INR (p - 1)) by now apply Rinv_0_lt_compat. nra.
Qed.

Lemma log_softmax_uniform (c : R) (V : nat) :
  (1 <= V)%nat -> log_softmax (repeat c V) = repeat (- ln (INR V)) V.
Proof.
  intros HV. unfold log_softmax. rewrite !map_repeat, vsum_repeat.
  rewrite ln_mult by (try apply exp_pos; apply lt_0_INR; lia).
  rewrite ln_exp. f_equal. ring.
Qed.

Lemma tab_const {A : Type} (a : A) (n : nat) : tab n (fun _ => a) = repeat a n.
Proof.
  induction n as [|n IH]; [reflexivity|]. rewrite tab_S. simpl. now rewrite IH.
Qed.

(** X19.  On logits that are the same number everywhere, whatever the
    (valid) target tokens, [cross_entropy_lm] returns [- ln d_vocab] for
    every sequence: the un-negated uniform baseline. *)
Theorem cross_entropy_lm_uniform (c : R) (tokens : token_tensor) (b p V : nat) :
  tokens_shape b p tokens -> valid_ids V tokens -> (2 <= p)%nat -> (1 <= V)%nat ->
  cross_entropy_lm (repeat (repeat (repeat c V) p) b) tokens
    = Ok (repeat (- ln (INR V)) b).
Proof.
  intros [Hb Hall] Hval Hp HV. unfold cross_entropy_lm.
  rewrite (gather_batch_ok (fun _ => tab (p - 1) (fun _ => - ln (INR V)))).
  - cbn [bind]. f_equal. rewrite length_map, Hb, map_tab.
    rewrite <- tab_const. apply tab_ext. intros n Hn.
    unfold mean. rewrite length_tab, tab_const, vsum_repeat.
    field. apply not_0_INR. lia.
  - rewrite !length_map, repeat_length. lia.
  - rewrite length_map, Hb. intros n Hn.
    rewrite !nth_map_nil by reflexivity. rewrite nth_repeat_lt by lia.
    rewrite map_repeat, log_softmax_uniform by assumption.
    assert (Ht : length (nth n tokens []) = p).
    { rewrite Forall_forall in Hall. apply Hall, nth_In. lia. }
    assert (Hv : Forall (fun id => (0 <= id < Z.of_nat V)%Z) (nth n tokens [])).
    { unfold valid_ids in Hval. rewrite Forall_forall in Hval. apply Hval, nth_In. lia. }
    assert (Hl : length (tl (nth n tokens [])) = (p - 1)%nat).
    { destruct (nth n tokens []); simpl in *; lia. }
    rewrite <- Hl at 1. apply gather_seq_ok.
    + rewrite length_removelast, repeat_length. lia.
    + rewrite Hl. intros i Hi.
      rewrite nth_tl, nth_removelast by (rewrite repeat_length; lia).
      rewrite nth_repeat_lt by lia.
      assert (Hid : (0 <= nth (S i) (nth n tokens []) 0 < Z.of_nat V)%Z).
      { rewrite Forall_forall in Hv. apply Hv, nth_In. lia. }
      unfold gather_entry. rewrite repeat_length.
      replace ((0 <=? nth (S i) (nth n tokens []) 0) &&
               (nth (S i) (nth n tokens []) 0 <? Z.of_nat V))%Z%bool with true
        by (symmetry; apply andb_true_iff; split; [apply Z.leb_le | apply Z.ltb_lt]; lia).
      rewrite vget_repeat by lia. reflexivity.
Qed.

(** ** What the constructor puts into a model *)

Lemma returns_LayerNorm_init_params (dm : nat) (std eps : R) :
  returns (LayerNorm.init dm std eps)
          (fun l => LayerNorm.layer_norm_eps l = eps /\ LayerNorm.bias l = zeros dm).
Proof.
  unfold LayerNorm.init. step_init returns_normal_vec.
  step_emit. apply returns_ret. split; reflexivity.
Qed.

Lemma returns_SelfAttention_init_params (nh dm dh : nat) (mask std : R) :
  returns (SelfAttention.init nh dm dh mask std)
          (fun a => SelfAttention.mask_val a = mask /\
                    SelfAttention.b_Q a = repeat (zeros dh) nh /\
                    SelfAttention.b_K a = repeat (zeros dh) nh /\
                    SelfAttention.b_V a = repeat (zeros dh) nh /\
                    SelfAttention.b_O a = zeros dm).
Proof.
  unfold SelfAttention.init. do 4 step_init returns_normal_tensor3.
  step_emit. apply returns_ret. repeat split; reflexivity.
Qed.

Lemma returns_TransformerBlock_init_defaults (dm dmlp dh nh : nat) :
  returns (TransformerBlock.init dm dmlp dh nh) (block_defaults dm dh nh).
Proof.
  unfold TransformerBlock.init.
  step_init returns_LayerNorm_init_params. step_init returns_SelfAttention_init_params.
  step_init returns_LayerNorm_init_params. step_init returns_MLP_init.
  step_emit. apply returns_ret. cbv beta in *. unfold block_defaults. simpl.
  repeat match goal with H : _ /\ _ |- _ => destruct H end.
  repeat split; assumption.
Qed.

(** X20.  When the constructor succeeds ([num_blocks] iterable), every block
    is built with the default epsilon [1e-5] and mask value [-1e5] and with
    zero biases in its layer norms and its attention, whatever the
    configuration says: only the final layer norm takes
    [config.layer_norm_eps], and the unembedding bias is zero. *)
Theorem Transformer_init_block_defaults (config : Config) (nb : pyval) (items : list pyval) :
  num_blocks config = Some nb -> py_iter nb = Ok items ->
  returns (Transformer.init config)
          (fun m =>
             length (Transformer.transformer m) = length items /\
             Forall (block_defaults (d_model config) (d_head config) (n_heads config))
                    (Transformer.transformer m) /\
             LayerNorm.layer_norm_eps (Transformer.ln m) = layer_norm_eps config /\
             UnembeddingLayer.b_U (Transformer.unembed m) = zeros (d_vocab config)).
Proof.
  intros Hnb Hit. unfold Transformer.init.
  step_init returns_EmbeddingLayer_init. step_init returns_PositionEmbedding_init.
  unfold getattr_num_blocks. rewrite Hnb.
  eapply returns_bind with (P := fun v => v = nb).
  { intros s. exists s, nb. auto. }
  intros ? ->. rewrite Hit.
  eapply returns_bind with (P := fun v => v = items).
  { intros s. exists s, items. auto. }
  intros ? ->.
  eapply returns_bind.
  { apply returns_mapI. intros _. apply returns_TransformerBlock_init_defaults. }
  intros blocks [Hlen Hall].
  step_init returns_LayerNorm_init_params.
  eapply returns_bind with (P := fun u => UnembeddingLayer.b_U u = zeros (d_vocab config)).
  { unfold UnembeddingLayer.init. step_init returns_normal_mat.
    step_emit. apply returns_ret. reflexivity. }
  intros u Hu.
  step_emit. apply returns_ret. simpl. cbv beta in *.
  repeat match goal with H : _ /\ _ |- _ => destruct H end. auto.
Qed.

(** ** The properties above on the small model *)

Lemma demo_model_ctx1_wf : Transformer.wf demo_config_ctx1 demo_model_ctx1.
Proof.
  destruct demo_model_wf as (He & _ & Hb & Hl & Hu).
  unfold Transformer.wf. simpl.
  repeat match goal with |- _ /\ _ => split end; try assumption.
  split; [reflexivity | repeat constructor].
Qed.

Lemma attn_pattern_masked_weight_bound_witness :
  tget (SelfAttention.attn_pattern demo_attn [[0; 0]; [2; 0]]) 0 0 1
    <= exp (SelfAttention.mask_val demo_attn
            - tget (SelfAttention.raw_scores demo_attn [[0; 0]; [2; 0]]) 0 0 0
              / sqrt (INR (SelfAttention.d_head demo_attn))).
Proof.
  exact (attn_pattern_masked_weight_bound demo_attn [[0; 0]; [2; 0]] 0 0 1
           ltac:(simpl; lia) ltac:(lia) ltac:(simpl; lia)).
Defined.

Lemma MLP_forward_positionwise_witness :
  has_shape3 1 2 2 (MLP.forward demo_mlp [[[0; 0]; [2; 0]]]).
Proof.
  exact (proj1 (MLP_forward_positionwise demo_mlp 1 2 1 2 0 1 0 [[[0; 0]; [2; 0]]]
                  ltac:(apply demo_block_wf)
                  ltac:(split; [reflexivity | repeat constructor])
                  ltac:(lia) ltac:(lia) ltac:(lia))).
Defined.


Lemma PositionEmbedding_forward_shape_only_witness :
  PositionEmbedding.forward (Transformer.pos_embed demo_model) [[0%Z; 1%Z]]
    = PositionEmbedding.forward (Transformer.pos_embed demo_model) [[1%Z; 0%Z]].
Proof.
  exact (proj1 (PositionEmbedding_forward_shape_only (Transformer.pos_embed demo_model) 1 2
                  [[0%Z; 1%Z]] [[1%Z; 0%Z]]
                  ltac:(split; [reflexivity | repeat constructor])
                  ltac:(split; [reflexivity | repeat constructor])
                  ltac:(lia))).
Defined.

Lemma Transformer_forward_too_long_witness :
  Transformer.forward demo_model [[0%Z; 1%Z; 0%Z]] = Raise RuntimeError.
Proof.
  exact (Transformer_forward_too_long demo_model demo_config 1 3 [[0%Z; 1%Z; 0%Z]]
           demo_model_wf
           ltac:(split; [reflexivity | repeat constructor])
           ltac:(lia) ltac:(simpl; lia) ltac:(simpl; lia) ltac:(lia)
           ltac:(repeat constructor; simpl; lia)).
Defined.

Lemma Transformer_forward_id_out_of_range_witness :
  Transformer.forward demo_model [[0%Z; 5%Z]] = Raise IndexError.
Proof.
  exact (Transformer_forward_id_out_of_range demo_model demo_config [[0%Z; 5%Z]]
           demo_model_wf
           ltac:(apply Exists_cons_hd, Exists_cons_tl, Exists_cons_hd; simpl; lia)).
Defined.

Lemma Transformer_forward_negative_ids_witness :
  Transformer.forward demo_model [[0%Z; (-1)%Z]]
    = Transformer.forward demo_model [[0%Z; 1%Z]].
Proof.
  exact (Transformer_forward_negative_ids demo_model demo_config [[0%Z; (-1)%Z]]
           demo_model_wf ltac:(repeat constructor; simpl; lia)).
Defined.

Lemma Transformer_forward_ctx1_broadcasts_witness :
  exists logits : tensor3,
    Transformer.forward demo_model_ctx1 [[0%Z; 1%Z]] = Ok logits /\
    has_shape3 1 2 2 logits.
Proof.
  destruct (Transformer_forward_ctx1_broadcasts demo_model_ctx1 demo_config_ctx1 1 2
              [[0%Z; 1%Z]] demo_model_ctx1_wf eq_refl
              ltac:(split; [reflexivity | repeat constructor])
              ltac:(lia) ltac:(lia) ltac:(repeat constructor; simpl; lia))
    as (x & logits & _ & _ & F & S).
  exists logits. split; [exact F | exact S].
Defined.

Lemma Transformer_forward_batch_independent_witness :
  exists logits : tensor3,
    Transformer.forward demo_model [[0%Z; 1%Z]; [1%Z; 0%Z]] = Ok logits /\
    Transformer.forward demo_model [[1%Z; 0%Z]] = Ok [nth 1 logits []].
Proof.
  exact (Transformer_forward_batch_independent demo_model demo_config 2 2 1
           [[0%Z; 1%Z]; [1%Z; 0%Z]] demo_model_wf
           ltac:(split; [reflexivity | repeat constructor])
           ltac:(simpl; lia) ltac:(repeat constructor; simpl; lia) ltac:(lia)).
Defined.

Lemma cross_entropy_lm_token_out_of_range_witness :
  cross_entropy_lm [[[0; 0]; [0; 0]]] [[0%Z; 2%Z]] = Raise RuntimeError.
Proof.
  exact (cross_entropy_lm_token_out_of_range [[[0; 0]; [0; 0]]] [[0%Z; 2%Z]] 1 2 2 0 1
           ltac:(split; [reflexivity | repeat constructor])
           ltac:(split; [reflexivity | repeat constructor])
           ltac:(lia) ltac:(lia) ltac:(simpl; lia)).
Defined.

Lemma cross_entropy_lm_unread_inputs_witness :
  cross_entropy_lm [[[0; 1]; [5; 7]]] [[0%Z; 1%Z]]
    = cross_entropy_lm [[[0; 1]; [2; 3]]] [[1%Z; 1%Z]].
Proof.
  apply (cross_entropy_lm_unread_inputs _ _ _ _ 1 2 2);
    try (split; [reflexivity | repeat constructor]).
  - intros [|n] [|i] Hn Hi; try lia. reflexivity.
  - intros [|n] [|[|i]] Hn Hi; try lia. reflexivity.
Defined.

Lemma cross_entropy_lm_nonpositive_witness :
  exists loss : vec,
    cross_entropy_lm [[[0; 1]; [2; 3]]] [[1%Z; 1%Z]] = Ok loss /\
    Forall (fun l => l <= 0) loss.
Proof.
  eexists. split; [reflexivity|].
  apply (cross_entropy_lm_nonpositive [[[0; 1]; [2; 3]]] [[1%Z; 1%Z]] 1 2);
    [split; [reflexivity | repeat constructor] | lia | reflexivity].
Defined.

Lemma cross_entropy_lm_uniform_witness :
  cross_entropy_lm [[[7; 7]; [7; 7]]] [[0%Z; 1%Z]] = Ok [- ln (INR 2)].
Proof.
  exact (cross_entropy_lm_uniform 7 [[0%Z; 1%Z]] 1 2 2
           ltac:(split; [reflexivity | repeat constructor])
           ltac:(repeat constructor; simpl; lia) ltac:(lia) ltac:(lia)).
Defined.

Lemma Transformer_init_block_defaults_witness :
  exists s' m,
    Transformer.init demo_config {| generator := fun _ => 0; trace := [] |} = (s', Ok m) /\
    length (Transformer.transformer m) = 1%nat /\
    Forall (block_defaults 2 1 1) (Transformer.transformer m).
Proof.
  destruct (Transformer_init_block_defaults demo_config (PyRange 1) [PyInt 0]
              eq_refl eq_refl {| generator := fun _ => 0; trace := [] |})
    as (s' & m & E & Hlen & Hall & _).
  exists s', m. split; [exact E|]. split; [exact Hlen | exact Hall].
Defined.

Lemma Transformer_init_iterable_witness :
  exists s' m,
    Transformer.init demo_config {| generator := fun _ => 0; trace := [] |} = (s', Ok m) /\
    Transformer.wf demo_config m /\
    length (Transformer.transformer m) = 1%nat.
Proof.
  destruct (Transformer_init_iterable demo_config (PyRange 1) [PyInt 0]
              eq_refl eq_refl {| generator := fun _ => 0; trace := [] |})
    as (s' & m & E & Hwf & Hlen).
  exists s', m. split; [exact E|]. split; [exact Hwf | exact Hlen].
Defined.

(** ** cross_entropy_lm on batches of different sizes *)

Lemma gather_rows_firstn (input : tensor3) (index : token_tensor) :
  gather_rows input index = gather_rows (firstn (length index) input) index.
Proof.
  revert input. induction index as [|ix index IH]; intros input; [reflexivity|].
  destruct input as [|x input]; [reflexivity|]. simpl. now rewrite <- IH.
Qed.

Lemma gather_batch_firstn (input : tensor3) (index : token_tensor) :
  gather_batch input index = gather_batch (firstn (length index) input) index.
Proof.
  unfold gather_batch. destruct (index_is_empty index); [reflexivity|].
  apply gather_rows_firstn.
Qed.

Lemma gather_rows_short (input : tensor3) (index : token_tensor) :
  (length input < length index)%nat -> gather_rows input index = Raise RuntimeError.
Proof.
  revert input. induction index as [|ix index IH]; intros input H; [simpl in H; lia|].
  destruct input as [|x input]; [reflexivity|]. simpl in *.
  destruct (gather_seq x ix) as [g|e] eqn:E; simpl.
  - rewrite IH by lia. reflexivity.
  - now rewrite (gather_seq_only_RuntimeError _ _ _ E).
Qed.

(** The targets of a batch with at least one sequence of at least two
    positions are an index with an element. *)
Lemma index_of_targets_nonempty (tokens : token_tensor) (b p : nat) :
  tokens_shape b p tokens -> (1 <= b)%nat -> (2 <= p)%nat ->
  index_is_empty (map (@tl Z) tokens) = false.
Proof.
  intros [Hb Hall] Hb1 Hp. destruct tokens as [|r tokens]; [simpl in Hb; lia|].
  inversion Hall as [|? ? Hr _]; subst. simpl.
  destruct r as [|t0 [|t1 r]]; simpl in *; try lia; reflexivity.
Qed.

(** X22.  When the two arguments of [cross_entropy_lm] have batches of
    different sizes, the token tensor having at least two positions: with
    fewer token rows than logits rows nothing is raised on that account and
    the surplus logits are never read; with more token rows than logits rows
    [torch.gather] raises RuntimeError. *)
Theorem cross_entropy_lm_batch_mismatch
        (logits : tensor3) (tokens : token_tensor) (b p : nat) :
  tokens_shape b p tokens -> (2 <= p)%nat ->
  cross_entropy_lm logits tokens = cross_entropy_lm (firstn b logits) tokens /\
  ((length logits < b)%nat -> cross_entropy_lm logits tokens = Raise RuntimeError).
Proof.
  intros Htok Hp. pose proof Htok as [Hb _]. split.
  - unfold cross_entropy_lm. rewrite gather_batch_firstn.
    now rewrite length_map, Hb, <- !firstn_map.
  - intros H. unfold cross_entropy_lm, gather_batch.
    rewrite (index_of_targets_nonempty tokens b p Htok) by lia.
    rewrite gather_rows_short; [reflexivity | now rewrite !length_map, Hb].
Qed.

Lemma cross_entropy_lm_batch_mismatch_witness :
  cross_entropy_lm [[[0; 0]; [0; 0]]] [[0%Z; 1%Z]; [1%Z; 0%Z]] = Raise RuntimeError.
Proof.
  exact (proj2 (cross_entropy_lm_batch_mismatch [[[0; 0]; [0; 0]]] [[0%Z; 1%Z]; [1%Z; 0%Z]] 2 2
                  ltac:(split; [reflexivity | repeat constructor]) ltac:(lia))
           ltac:(simpl; lia)).
Defined.
